(** * The Windows console adapter of the light renderer (src/tui/light_windows.go)

    A shallow embedding of the file: the console host the code talks to
    (console modes per handle, files that can be opened, environment
    variables, screen-buffer geometry), the renderer's functions as state
    transformers, and the background reader goroutine as a small-step
    machine scheduled together with the calls of the main flow. *)

From Stdlib Require Import ZArith Lia.
From Stdlib.Strings Require Import Byte.
From stdpp Require Import gmap strings list.

Local Open Scope Z_scope.

(** ** The console host *)

(** Screen-buffer geometry as [windows.ConsoleScreenBufferInfo] has it; only
    the fields this file reads are kept. All of them are int16. *)
Record SmallRect := { Left : Z; Top : Z; Right : Z; Bottom : Z }.
Record Coord := { X : Z; Y : Z }.
Record ConsoleScreenBufferInfo := { CursorPosition : Coord; Window : SmallRect }.

(** A Go [error] returned by a system call: [None] is nil, [Some e] carries
    the Windows error code. *)
Definition error := option Z.

(** What the operating system holds: the console mode of every handle that
    is a console handle, which mode values the console driver accepts for a
    handle, the device files that can be opened, the handle of the standard
    error stream, the geometry of every handle that is a screen buffer, and
    the environment variables of the process. *)
Record Host := {
  modes : gmap Z Z;
  accepts : Z -> Z -> bool;
  files : gmap string Z;
  stderr_handle : Z;
  screens : gmap Z ConsoleScreenBufferInfo;
  environ : gmap string string
}.

Definition set_modes (m : gmap Z Z) (w : Host) : Host :=
  {| modes := m; accepts := accepts w; files := files w;
     stderr_handle := stderr_handle w; screens := screens w;
     environ := environ w |}.

Definition ERROR_FILE_NOT_FOUND : Z := 2.
Definition ERROR_INVALID_HANDLE : Z := 6.
Definition ERROR_INVALID_PARAMETER : Z := 87.

Module windows.

Definition ENABLE_PROCESSED_INPUT : Z := 0x1.
Definition ENABLE_EXTENDED_FLAGS : Z := 0x80.
Definition ENABLE_VIRTUAL_TERMINAL_INPUT : Z := 0x200.

Definition ENABLE_PROCESSED_OUTPUT : Z := 0x1.
Definition ENABLE_VIRTUAL_TERMINAL_PROCESSING : Z := 0x4.
Definition DISABLE_NEWLINE_AUTO_RETURN : Z := 0x8.

Definition Stderr (w : Host) : Z := stderr_handle w.

(** [GetConsoleMode(h, &mode)]: the mode of a console handle, an error for
    any other handle. *)
Definition GetConsoleMode (w : Host) (h : Z) : Z + Z :=
  match modes w !! h with
  | Some m => inr m
  | None => inl ERROR_INVALID_HANDLE
  end.

(** [SetConsoleMode(h, mode)]: fails, leaving the console as it is, on a
    handle that is no console or for a mode the driver does not accept;
    otherwise the console is in the requested mode. *)
Definition SetConsoleMode (w : Host) (h mode : Z) : error * Host :=
  match modes w !! h with
  | None => (Some ERROR_INVALID_HANDLE, w)
  | Some _ =>
      if accepts w h mode
      then (None, set_modes (<[h := mode]> (modes w)) w)
      else (Some ERROR_INVALID_PARAMETER, w)
  end.

Definition GetConsoleScreenBufferInfo (w : Host) (h : Z)
  : Z + ConsoleScreenBufferInfo :=
  match screens w !! h with
  | Some info => inr info
  | None => inl ERROR_INVALID_HANDLE
  end.

End windows.

Module syscall.

(** [^uintptr(0)] *)
Definition InvalidHandle : Z := 2 ^ 64 - 1.

(** [syscall.Open(path, mode, perm)] returns the handle and an error; the
    handle is [InvalidHandle] when the file cannot be opened. *)
Definition Open (w : Host) (path : string) : Z * error :=
  match files w !! path with
  | Some h => (h, None)
  | None => (InvalidHandle, Some ERROR_FILE_NOT_FOUND)
  end.

End syscall.

Module os.

(** [os.Getenv]: the value of the variable, empty when it is not set. *)
Definition Getenv (w : Host) (name : string) : string :=
  default EmptyString (environ w !! name).

End os.

(** The console behind handle [h] is settled when its driver accepts the
    mode the console is in. *)
Definition settled (w : Host) (h : Z) : Prop :=
  forall m, modes w !! h = Some m -> accepts w h m = true.

(** ** Package-level declarations *)

Definition timeoutInterval : Z := 10.

Definition consoleFlagsInput : Z :=
  Z.lor (Z.lor windows.ENABLE_VIRTUAL_TERMINAL_INPUT windows.ENABLE_PROCESSED_INPUT)
        windows.ENABLE_EXTENDED_FLAGS.

Definition consoleFlagsOutput : Z :=
  Z.lor (Z.lor windows.ENABLE_VIRTUAL_TERMINAL_PROCESSING windows.ENABLE_PROCESSED_OUTPUT)
        windows.DISABLE_NEWLINE_AUTO_RETURN.

(** The two themes [DefaultTheme] chooses between (declared with the other
    themes of the package). *)
Inductive ColorTheme := Default16 | Dark256.

(** Modelled from the spec: the declaration of [TermSize] is outside this
    file; the spec gives its fields as lines, columns, x-offset, y-offset,
    in the order the composite literal of [Size] fills them. *)
Record TermSize := { Lines : Z; Columns : Z; XOffset : Z; YOffset : Z }.

(** The fields of [LightRenderer] this file uses. [ttyinChannel] is a
    reference to a channel of the heap ([None] is the nil channel);
    [mutex] tells whether the mutex is locked. *)
Record LightRenderer := {
  origStateInput : Z;
  origStateOutput : Z;
  inHandle : Z;
  outHandle : Z;
  ttyinChannel : option nat;
  mutex : bool;
  maxHeightFunc : Z -> Z;
  width : Z;
  height : Z
}.

(** ** The capability probe *)

(** [IsLightRendererSupported], with the console it leaves behind. *)
Definition IsLightRendererSupported (w : Host) : bool * Host :=
  match windows.GetConsoleMode w (windows.Stderr w) with
  | inl _ => (false, w)
  | inr oldState =>
      let '(err, w1) :=
        windows.SetConsoleMode w (windows.Stderr w)
          (Z.lor oldState windows.ENABLE_VIRTUAL_TERMINAL_PROCESSING) in
      let canSetVt100 := bool_decide (err = None) in
      match windows.GetConsoleMode w1 (windows.Stderr w1) with
      | inl _ => (false, w1)
      | inr checkState =>
          if negb (Z.land checkState windows.ENABLE_VIRTUAL_TERMINAL_PROCESSING
                   =? windows.ENABLE_VIRTUAL_TERMINAL_PROCESSING)
          then (false, w1)
          else
            let '(_, w2) := windows.SetConsoleMode w1 (windows.Stderr w1) oldState in
            (canSetVt100, w2)
      end
  end.

(** [DefaultTheme]: the probe runs first, the two environment variables are
    read only when it succeeds. *)
Definition DefaultTheme (w : Host) : ColorTheme * Host :=
  let '(supported, w1) := IsLightRendererSupported w in
  if negb supported
     || negb (bool_decide (os.Getenv w1 "ConEmuPID" = EmptyString))
     || bool_decide (os.Getenv w1 "TCELL_TRUECOLOR" = "disable"%string)
  then (Default16, w1)
  else (Dark256, w1).

(** ** The program state *)

(** Where a reader goroutine stands in its loop (lines 98 to 112): before
    [util.Read], before [r.mutex.Lock()], before the channel send (the mutex
    held and the generation check passed), before the [SetConsoleMode] that
    follows the send (the mutex still held), or after [break]. *)
Inductive pc := AtRead | AtLock | AtSend | AtSetMode | Exited.

(** A goroutine started by [setupTerminal]: the generation it captured in
    [current], its [fd], its one-byte buffer [b] and its position. *)
Record Reader := { current : Z; fd : Z; b : byte; at_pc : pc }.

(** The whole state: the host, the package variable [counter] (a uint64),
    the renderer [r], the heap of channels (each with its buffered bytes,
    oldest first), the goroutines started so far, the time in milliseconds,
    and the [getch] call in progress, if any, with its [nonblock] argument
    and the time it was entered. *)
Record State := {
  host : Host;
  counter : Z;
  r : LightRenderer;
  chans : list (list byte);
  goroutines : list Reader;
  now : Z;
  getter : option (bool * Z)
}.

Definition set_host (w : Host) (s : State) : State :=
  {| host := w; counter := counter s; r := r s; chans := chans s;
     goroutines := goroutines s; now := now s; getter := getter s |}.
Definition set_counter (c : Z) (s : State) : State :=
  {| host := host s; counter := c; r := r s; chans := chans s;
     goroutines := goroutines s; now := now s; getter := getter s |}.
Definition set_r (x : LightRenderer) (s : State) : State :=
  {| host := host s; counter := counter s; r := x; chans := chans s;
     goroutines := goroutines s; now := now s; getter := getter s |}.
Definition set_chans (c : list (list byte)) (s : State) : State :=
  {| host := host s; counter := counter s; r := r s; chans := c;
     goroutines := goroutines s; now := now s; getter := getter s |}.
Definition set_goroutines (g : list Reader) (s : State) : State :=
  {| host := host s; counter := counter s; r := r s; chans := chans s;
     goroutines := g; now := now s; getter := getter s |}.
Definition set_now (t : Z) (s : State) : State :=
  {| host := host s; counter := counter s; r := r s; chans := chans s;
     goroutines := goroutines s; now := t; getter := getter s |}.
Definition set_getter (g : option (bool * Z)) (s : State) : State :=
  {| host := host s; counter := counter s; r := r s; chans := chans s;
     goroutines := goroutines s; now := now s; getter := g |}.

Definition set_origStateOutput (m : Z) (x : LightRenderer) : LightRenderer :=
  {| origStateInput := origStateInput x; origStateOutput := m;
     inHandle := inHandle x; outHandle := outHandle x;
     ttyinChannel := ttyinChannel x; mutex := mutex x;
     maxHeightFunc := maxHeightFunc x; width := width x; height := height x |}.
Definition set_origStateInput (m : Z) (x : LightRenderer) : LightRenderer :=
  {| origStateInput := m; origStateOutput := origStateOutput x;
     inHandle := inHandle x; outHandle := outHandle x;
     ttyinChannel := ttyinChannel x; mutex := mutex x;
     maxHeightFunc := maxHeightFunc x; width := width x; height := height x |}.
Definition set_outHandle (h : Z) (x : LightRenderer) : LightRenderer :=
  {| origStateInput := origStateInput x; origStateOutput := origStateOutput x;
     inHandle := inHandle x; outHandle := h;
     ttyinChannel := ttyinChannel x; mutex := mutex x;
     maxHeightFunc := maxHeightFunc x; width := width x; height := height x |}.
Definition set_inHandle (h : Z) (x : LightRenderer) : LightRenderer :=
  {| origStateInput := origStateInput x; origStateOutput := origStateOutput x;
     inHandle := h; outHandle := outHandle x;
     ttyinChannel := ttyinChannel x; mutex := mutex x;
     maxHeightFunc := maxHeightFunc x; width := width x; height := height x |}.
Definition set_ttyinChannel (c : option nat) (x : LightRenderer) : LightRenderer :=
  {| origStateInput := origStateInput x; origStateOutput := origStateOutput x;
     inHandle := inHandle x; outHandle := outHandle x;
     ttyinChannel := c; mutex := mutex x;
     maxHeightFunc := maxHeightFunc x; width := width x; height := height x |}.
Definition set_mutex (l : bool) (x : LightRenderer) : LightRenderer :=
  {| origStateInput := origStateInput x; origStateOutput := origStateOutput x;
     inHandle := inHandle x; outHandle := outHandle x;
     ttyinChannel := ttyinChannel x; mutex := l;
     maxHeightFunc := maxHeightFunc x; width := width x; height := height x |}.
Definition set_width_height (w h : Z) (x : LightRenderer) : LightRenderer :=
  {| origStateInput := origStateInput x; origStateOutput := origStateOutput x;
     inHandle := inHandle x; outHandle := outHandle x;
     ttyinChannel := ttyinChannel x; mutex := mutex x;
     maxHeightFunc := maxHeightFunc x; width := w; height := h |}.

(** A call of [windows.SetConsoleMode] whose error is dropped. *)
Definition SetConsoleMode_ (h mode : Z) (s : State) : State :=
  set_host (snd (windows.SetConsoleMode (host s) h mode)) s.

(** [make(chan byte, 1024)]: a new, empty channel at the end of the heap. *)
Definition chan_cap : nat := 1024.

Definition make_chan (s : State) : nat * State :=
  (length (chans s), set_chans (chans s ++ [[]]) s).

(** [go func() {...}()]: one more goroutine, at the top of its loop. *)
Definition go (rd : Reader) (s : State) : State :=
  set_goroutines (goroutines s ++ [rd]) s.

(** ** Entering and leaving the adapter's terminal mode *)

Definition setupTerminal (s : State) : State :=
  let s := SetConsoleMode_ (outHandle (r s)) consoleFlagsOutput s in
  let s := SetConsoleMode_ (inHandle (r s)) consoleFlagsInput s in
  let current := counter s in
  go {| current := current; fd := inHandle (r s); b := x00; at_pc := AtRead |} s.

Definition initPlatform (s : State) : error * State :=
  let '(outHandle, _) := syscall.Open (host s) "CONOUT$" in
  match windows.GetConsoleMode (host s) outHandle with
  | inl err => (Some err, s)
  | inr m =>
      let s := set_r (set_origStateOutput m (r s)) s in
      let s := set_r (set_outHandle outHandle (r s)) s in
      let '(inHandle, _) := syscall.Open (host s) "CONIN$" in
      match windows.GetConsoleMode (host s) inHandle with
      | inl err => (Some err, s)
      | inr m =>
          let s := set_r (set_origStateInput m (r s)) s in
          let s := set_r (set_inHandle inHandle (r s)) s in
          let '(c, s) := make_chan s in
          let s := set_r (set_ttyinChannel (Some c) (r s)) s in
          let s := setupTerminal s in
          (None, s)
      end
  end.

Definition closePlatform (s : State) : State :=
  let s := SetConsoleMode_ (outHandle (r s)) (origStateOutput (r s)) s in
  SetConsoleMode_ (inHandle (r s)) (origStateInput (r s)) s.

(** [counter++] on a uint64. *)
Definition incr64 (c : Z) : Z := (c + 1) mod 2 ^ 64.

(** [restoreTerminal] runs from [Lock] to [Unlock] once the mutex is free;
    [None] while another goroutine holds it. *)
Definition restoreTerminal (s : State) : option State :=
  if mutex (r s) then None
  else
    let s := set_r (set_mutex true (r s)) s in
    let s := set_counter (incr64 (counter s)) s in
    let s := SetConsoleMode_ (inHandle (r s))
               (Z.lor (origStateInput (r s)) windows.ENABLE_VIRTUAL_TERMINAL_INPUT) s in
    let s := SetConsoleMode_ (outHandle (r s)) (origStateOutput (r s)) s in
    Some (set_r (set_mutex false (r s)) s).

(** ** Geometry *)

(** Subtraction of two int16 values, as an int16. *)
Definition sub16 (x y : Z) : Z := (x - y + 2 ^ 15) mod 2 ^ 16 - 2 ^ 15.

Section Geometry.

(** Declared elsewhere in the package: [getEnv name defaultValue], the
    number found in an environment variable or the default, and the two
    default dimensions. *)
Variable getEnv : Host -> string -> Z -> Z.
Variables defaultWidth defaultHeight : Z.

Definition Size (s : State) : TermSize :=
  let '(w, h) :=
    match windows.GetConsoleScreenBufferInfo (host s) (outHandle (r s)) with
    | inl _ =>
        (getEnv (host s) "COLUMNS" defaultWidth,
         maxHeightFunc (r s) (getEnv (host s) "LINES" defaultHeight))
    | inr bufferInfo =>
        (sub16 (Right (Window bufferInfo)) (Left (Window bufferInfo)),
         maxHeightFunc (r s)
           (sub16 (Bottom (Window bufferInfo)) (Top (Window bufferInfo))))
    end in
  {| Lines := h; Columns := w; XOffset := 0; YOffset := 0 |}.

Definition updateTerminalSize (s : State) : State :=
  let size := Size s in
  set_r (set_width_height (Columns size) (Lines size) (r s)) s.

End Geometry.

(** [findOffset] returns (row, col). *)
Definition findOffset (s : State) : Z * Z :=
  match windows.GetConsoleScreenBufferInfo (host s) (outHandle (r s)) with
  | inl _ => (-1, -1)
  | inr bufferInfo =>
      (Y (CursorPosition bufferInfo), X (CursorPosition bufferInfo))
  end.

(** ** Channel operations *)

(** [int(bc)] *)
Definition int_of_byte (bc : byte) : Z := Z.of_N (Byte.to_N bc).

(** [<-r.ttyinChannel]: the oldest buffered byte, or [None] when the
    receive cannot proceed (empty or nil channel). *)
Definition recv (s : State) : option (byte * State) :=
  ch ← ttyinChannel (r s);
  q ← chans s !! ch;
  match q with
  | [] => None
  | bc :: q' => Some (bc, set_chans (<[ch := q']> (chans s)) s)
  end.

(** [r.ttyinChannel <- x]: [None] when the send cannot proceed (full or nil
    channel). *)
Definition send (x : byte) (s : State) : option State :=
  ch ← ttyinChannel (r s);
  q ← chans s !! ch;
  if (length q <? chan_cap)%nat
  then Some (set_chans (<[ch := q ++ [x]]> (chans s)) s)
  else None.

(** ** Reading a key *)

(** The communication with which a [getch] call completes: the receive from
    [r.ttyinChannel] (in the [select] or in the [else] branch), or the
    receive from the channel of [time.After]. *)
Inductive comm := CaseRecv | CaseAfter.

(** [getch nonblock], entered at time [entered], completing in state [s]
    with the communication [c]; [None] when [c] cannot proceed in [s]. The
    channel of [time.After] is ready once [timeoutInterval] milliseconds
    have passed since the call was entered. *)
Definition getch (nonblock : bool) (entered : Z) (c : comm) (s : State)
  : option ((Z * bool) * State) :=
  if nonblock then
    match c with
    | CaseRecv => '(bc, s') ← recv s; Some ((int_of_byte bc, true), s')
    | CaseAfter =>
        if entered + timeoutInterval <=? now s then Some ((0, false), s)
        else None
    end
  else
    match c with
    | CaseRecv => '(bc, s') ← recv s; Some ((int_of_byte bc, true), s')
    | CaseAfter => None
    end.

(** ** The reader goroutine *)

(** What a goroutine does in one step: [util.Read] returns a byte or an
    error, the mutex is taken and the generation compared, the byte is sent,
    the input mode is set again and the mutex released. *)
Inductive action :=
| ReadOk (x : byte)
| ReadErr
| Lock
| Send
| SetModeUnlock.

(** What a run shows: a byte sent to the channel by goroutine [i], a value
    returned by [getch]. *)
Inductive obs :=
| Pushed (i : nat) (x : byte)
| Returned (v : Z) (ok : bool).

Definition set_pc (p : pc) (rd : Reader) : Reader :=
  {| current := current rd; fd := fd rd; b := b rd; at_pc := p |}.
Definition set_b (x : byte) (rd : Reader) : Reader :=
  {| current := current rd; fd := fd rd; b := x; at_pc := at_pc rd |}.

(** One step of goroutine [i], which is [rd]: the reader and the state after
    it, or [None] when the goroutine is not at that step or is blocked. *)
Definition reader_step (i : nat) (a : action) (rd : Reader) (s : State)
  : option (Reader * State * list obs) :=
  match at_pc rd, a with
  | AtRead, ReadOk x => Some (set_pc AtLock (set_b x rd), s, [])
  | AtRead, ReadErr => Some (rd, s, [])
  | AtLock, Lock =>
      if mutex (r s) then None
      else if bool_decide (current rd ≠ counter s)
      then Some (set_pc Exited rd, s, [])
      else Some (set_pc AtSend rd, set_r (set_mutex true (r s)) s, [])
  | AtSend, Send =>
      s' ← send (b rd) s;
      Some (set_pc AtSetMode rd, s', [Pushed i (b rd)])
  | AtSetMode, SetModeUnlock =>
      let s := SetConsoleMode_ (inHandle (r s)) consoleFlagsInput s in
      Some (set_pc AtRead rd, set_r (set_mutex false (r s)) s, [])
  | _, _ => None
  end.

(** ** Runs *)

(** The events of a run: a call of [setupTerminal] or [restoreTerminal], a
    call of [getch] being entered, a [getch] call completing, a millisecond
    passing, a step of a goroutine. *)
Inductive event :=
| Setup
| Restore
| GetchCall (nonblock : bool)
| GetchReturn (c : comm)
| Tick
| Go (i : nat) (a : action).

Definition step (e : event) (s : State) : option (State * list obs) :=
  match e with
  | Setup => Some (setupTerminal s, [])
  | Restore => s' ← restoreTerminal s; Some (s', [])
  | GetchCall nonblock =>
      match getter s with
      | Some _ => None
      | None => Some (set_getter (Some (nonblock, now s)) s, [])
      end
  | GetchReturn c =>
      '(nonblock, entered) ← getter s;
      '((v, ok), s') ← getch nonblock entered c s;
      Some (set_getter None s', [Returned v ok])
  | Tick => Some (set_now (now s + 1) s, [])
  | Go i a =>
      rd ← goroutines s !! i;
      '(rd', s', o) ← reader_step i a rd s;
      Some (set_goroutines (<[i := rd']> (goroutines s')) s', o)
  end.

Fixpoint run (es : list event) (s : State) : option (State * list obs) :=
  match es with
  | [] => Some (s, [])
  | e :: es' =>
      '(s1, o1) ← step e s;
      '(s2, o2) ← run es' s1;
      Some (s2, o1 ++ o2)
  end.

(** The state a process starts in, on host [w] with the height policy [mh]:
    [counter] is 0 and every field of the renderer has its zero value. *)
Definition boot (w : Host) (mh : Z -> Z) : State :=
  {| host := w; counter := 0;
     r := {| origStateInput := 0; origStateOutput := 0; inHandle := 0;
             outHandle := 0; ttyinChannel := None; mutex := false;
             maxHeightFunc := mh; width := 0; height := 0 |};
     chans := []; goroutines := []; now := 0; getter := None |}.

(** ** What a run shows *)

(** [path] names no console whose mode can be read: it cannot be opened, or
    [GetConsoleMode] fails on the handle [syscall.Open] returned. *)
Definition unreadable (w : Host) (path : string) : Prop :=
  (syscall.Open w path).2 ≠ None \/
  exists e, windows.GetConsoleMode w (syscall.Open w path).1 = inl e.

(** The bytes buffered in [r.ttyinChannel], oldest first (none for a nil
    channel). *)
Definition buffer (s : State) : list byte :=
  default [] (ch ← ttyinChannel (r s); chans s !! ch).

(** The bytes sent to the channel during a run, in the order of the sends. *)
Fixpoint pushed (o : list obs) : list byte :=
  match o with
  | [] => []
  | Pushed _ x :: o' => x :: pushed o'
  | Returned _ _ :: o' => pushed o'
  end.

(** The values [getch] returned with [ok = true] during a run, in the order
    of the calls. *)
Fixpoint received (o : list obs) : list Z :=
  match o with
  | [] => []
  | Returned v true :: o' => v :: received o'
  | _ :: o' => received o'
  end.

(** The number of [restoreTerminal] calls among the events of a run. *)
Fixpoint restores (es : list event) : Z :=
  match es with
  | [] => 0
  | Restore :: es' => 1 + restores es'
  | _ :: es' => restores es'
  end.

(** The events that call neither [setupTerminal] nor [restoreTerminal]:
    steps of the goroutines, [getch], time passing. *)
Definition quiet (e : event) : bool :=
  match e with
  | Setup | Restore => false
  | _ => true
  end.

(** ** What the proofs keep track of *)

(** A goroutine holds the mutex from the generation check to the unlock. *)
Definition holds_mutex (rd : Reader) : bool :=
  match at_pc rd with
  | AtSend | AtSetMode => true
  | _ => false
  end.

(** The invariant of the generation counter, for a state reached after [n]
    calls of [restoreTerminal]: the counter has not wrapped around, no
    goroutine captured a generation of the future, a goroutine that holds
    the mutex captured the present generation, and at most one goroutine
    holds the mutex. *)
Record generation_inv (n : Z) (s : State) : Prop := {
  inv_nonneg : 0 <= n;
  inv_counter : counter s = n;
  inv_current : forall i rd, goroutines s !! i = Some rd ->
                  0 <= current rd <= counter s;
  inv_holder : forall i rd, goroutines s !! i = Some rd ->
                 holds_mutex rd = true ->
                 mutex (r s) = true /\ current rd = counter s;
  inv_unique : forall i j rdi rdj,
                 goroutines s !! i = Some rdi -> goroutines s !! j = Some rdj ->
                 holds_mutex rdi = true -> holds_mutex rdj = true -> i = j
}.

(** Every goroutine is behind the counter. *)
Definition all_stale (s : State) : Prop :=
  forall i rd, goroutines s !! i = Some rd -> current rd < counter s.

(** What no call changes in the host: the driver, the files, the handle of
    standard error, the geometry, the environment, and which handles are
    consoles. *)
Record host_frame (w w' : Host) : Prop := {
  hf_accepts : accepts w' = accepts w;
  hf_files : files w' = files w;
  hf_stderr : stderr_handle w' = stderr_handle w;
  hf_screens : screens w' = screens w;
  hf_environ : environ w' = environ w;
  hf_consoles : forall h, is_Some (modes w' !! h) <-> is_Some (modes w !! h)
}.

(** What no event of a run changes: the host as above, the fields of the
    renderer set by [initPlatform], the channels that exist, and the
    generation each goroutine captured. *)
Record frame (s s' : State) : Prop := {
  fr_host : host_frame (host s) (host s');
  fr_origStateInput : origStateInput (r s') = origStateInput (r s);
  fr_origStateOutput : origStateOutput (r s') = origStateOutput (r s);
  fr_inHandle : inHandle (r s') = inHandle (r s);
  fr_outHandle : outHandle (r s') = outHandle (r s);
  fr_ttyinChannel : ttyinChannel (r s') = ttyinChannel (r s);
  fr_chans : length (chans s') = length (chans s);
  fr_goroutines : forall i rd, goroutines s !! i = Some rd ->
      exists rd', goroutines s' !! i = Some rd' /\ current rd' = current rd
}.

(** ** Consoles and runs to compute with *)

(** A console whose driver knows the mode bits below [0x400]: standard error
    and the screen buffer [CONOUT$] are handle 7 and handle 11, the input
    buffer [CONIN$] is handle 12. *)
Definition demo_host : Host :=
  {| modes := {[ 7 := 0x3; 11 := 0x3; 12 := 0x1f7 ]};
     accepts := fun _ m => Z.land m (Z.lnot 0x3ff) =? 0;
     files := {[ "CONOUT$"%string := 11; "CONIN$"%string := 12 ]};
     stderr_handle := 7;
     screens := {[ 11 := {| CursorPosition := {| X := 4; Y := 9 |};
                            Window := {| Left := 0; Top := 0;
                                         Right := 119; Bottom := 29 |} |} ]};
     environ := ∅ |}.

Definition demo_state : State := (initPlatform (boot demo_host id)).2.

(** A console that supports the advanced mode, inside ConEmu. *)
Definition conemu_host : Host :=
  {| modes := modes demo_host; accepts := accepts demo_host;
     files := files demo_host; stderr_handle := stderr_handle demo_host;
     screens := screens demo_host;
     environ := {[ "ConEmuPID"%string := "4242"%string ]} |}.

(** A console host of an old system: the driver knows the mode bits below
    [0x4] only, no file can be opened, and no handle is a screen buffer. *)
Definition legacy_host : Host :=
  {| modes := {[ 7 := 0x3 ]};
     accepts := fun _ m => Z.land m (Z.lnot 0x3) =? 0;
     files := ∅;
     stderr_handle := 7;
     screens := ∅;
     environ := {[ "COLUMNS"%string := "100"%string ]} |}.

(** Goroutine [i] reads byte [x] and sends it to the channel. *)
Definition feed (i : nat) (x : byte) : list event :=
  [Go i (ReadOk x); Go i Lock; Go i Send; Go i SetModeUnlock].

(** The three bytes of the arrow-up key, read and sent by goroutine 0 with
    nobody receiving, then received by three blocking [getch] calls. *)
Definition arrow_scenario : list event :=
  feed 0 x1b ++ feed 0 x5b ++ feed 0 x41 ++
  [GetchCall false; GetchReturn CaseRecv;
   GetchCall false; GetchReturn CaseRecv;
   GetchCall false; GetchReturn CaseRecv].

(** A second cycle: a byte sent to the channel, then [restoreTerminal] and
    [setupTerminal] again, then a blocking [getch]. *)
Definition reenter_scenario : list event :=
  feed 0 x1b ++ [Restore; Setup; GetchCall false; GetchReturn CaseRecv].

(** Goroutine 0 sends a byte; after [restoreTerminal] and a second
    [setupTerminal], goroutine 0 reads another byte and takes the mutex,
    then goroutine 1 reads a byte and sends it. *)
Definition stale_scenario : list event :=
  [Setup; Go 0 (ReadOk x41); Go 0 Lock] ++ feed 1 x42.

(** A non-blocking [getch] entered at time 0 on [demo_state], and ten
    milliseconds passing with nothing to receive. *)
Definition waited_state : State :=
  set_now 10 (set_getter (Some (true, 0)) demo_state).

(** ** More bookkeeping *)

(** The number of [setupTerminal] calls among the events of a run. *)
Fixpoint setups (es : list event) : nat :=
  match es with
  | [] => 0%nat
  | Setup :: es' => S (setups es')
  | _ :: es' => setups es'
  end.

(** The mutex and the goroutines agree: a goroutine between its generation
    check and its unlock holds the locked mutex and captured the present
    generation, no two goroutines are there at once, and the mutex is locked
    only while some goroutine is there. *)
Record mutex_inv (s : State) : Prop := {
  mi_holder : forall i rd, goroutines s !! i = Some rd ->
                holds_mutex rd = true ->
                mutex (r s) = true /\ current rd = counter s;
  mi_unique : forall i j rdi rdj,
                goroutines s !! i = Some rdi -> goroutines s !! j = Some rdj ->
                holds_mutex rdi = true -> holds_mutex rdj = true -> i = j;
  mi_locked : mutex (r s) = true ->
                exists i rd, goroutines s !! i = Some rd /\
                             holds_mutex rd = true
}.

(** The counter at its largest value, goroutine 0 (of generation 0) waiting
    for the mutex with a byte it has read. *)
Definition wrap_state : State :=
  set_counter (2 ^ 64 - 1)
    (set_goroutines
       [{| current := 0; fd := 12; b := x41; at_pc := AtLock |}] demo_state).

(** The channel full, goroutine 0 standing at the send with the mutex held,
    and a blocking [getch] in progress. *)
Definition full_state : State :=
  set_getter (Some (false, 0))
    (set_r (set_mutex true (r demo_state))
       (set_chans [replicate 1024 x41]
          (set_goroutines
             [{| current := 0; fd := 12; b := x42; at_pc := AtSend |}]
             demo_state))).

(** * Properties *)

(** ** The host *)

Lemma set_modes_same w : set_modes (modes w) w = w.
Proof. by destruct w. Qed.

Lemma SetConsoleMode_environ w h m :
  environ (windows.SetConsoleMode w h m).2 = environ w.
Proof.
  unfold windows.SetConsoleMode.
  destruct (modes w !! h); [destruct (accepts w h m)|]; reflexivity.
Qed.

Lemma SetConsoleMode_accepts w h m :
  accepts (windows.SetConsoleMode w h m).2 = accepts w.
Proof.
  unfold windows.SetConsoleMode.
  destruct (modes w !! h); [destruct (accepts w h m)|]; reflexivity.
Qed.

(** The mode of a console after a [SetConsoleMode] on handle [h]. *)
Lemma SetConsoleMode_modes w h m k :
  modes (windows.SetConsoleMode w h m).2 !! k =
  if decide (k = h)
  then (fun m0 => if accepts w h m then m else m0) <$> modes w !! h
  else modes w !! k.
Proof.
  unfold windows.SetConsoleMode.
  destruct (decide (k = h)) as [->|Hne].
  - destruct (modes w !! h) as [m0|] eqn:Hm; simpl; [|by rewrite Hm].
    destruct (accepts w h m); simpl; [by rewrite lookup_insert_eq | by rewrite Hm].
  - destruct (modes w !! h); [destruct (accepts w h m)|]; simpl; try done.
    by rewrite lookup_insert_ne.
Qed.

Lemma land_lor_same a f : Z.land (Z.lor a f) f = f.
Proof.
  apply Z.bits_inj'. intros n _.
  rewrite Z.land_spec, Z.lor_spec. by destruct (Z.testbit a n), (Z.testbit f n).
Qed.

(** ** The capability probe *)

(** C3. Whatever mode the console of standard error is in, and whether the
    probe answers true or false (or cannot read the mode at all), the probe
    leaves that console in the mode it read at entry; indeed it leaves the
    whole host as it found it. The console driver is taken to accept the
    mode the console is already in. *)
Theorem probe_leaves_mode (w : Host) :
  settled w (windows.Stderr w) ->
  windows.GetConsoleMode (IsLightRendererSupported w).2 (windows.Stderr w)
    = windows.GetConsoleMode w (windows.Stderr w)
  /\ (IsLightRendererSupported w).2 = w.
Proof.
  intros Hacc.
  assert ((IsLightRendererSupported w).2 = w) as Heq; [|by rewrite Heq].
  unfold IsLightRendererSupported, windows.GetConsoleMode, windows.Stderr.
  destruct (modes w !! stderr_handle w) as [old|] eqn:Hold; [|done].
  specialize (Hacc old Hold). unfold windows.Stderr in Hacc.
  unfold windows.SetConsoleMode at 1. rewrite Hold.
  destruct (accepts w (stderr_handle w) (Z.lor old _)) eqn:Hvt; simpl.
  - rewrite lookup_insert_eq, land_lor_same, Z.eqb_refl. simpl.
    unfold windows.SetConsoleMode. simpl.
    rewrite lookup_insert_eq, Hacc. simpl.
    unfold set_modes. simpl.
    rewrite insert_insert_eq, insert_id by done. by destruct w.
  - rewrite Hold. destruct (negb _); [done|].
    unfold windows.SetConsoleMode. rewrite Hold, Hacc. simpl.
    rewrite insert_id by done. apply set_modes_same.
Qed.

Lemma probe_leaves_mode_witness :
  settled demo_host (windows.Stderr demo_host) /\
  windows.GetConsoleMode (IsLightRendererSupported demo_host).2
    (windows.Stderr demo_host)
  = windows.GetConsoleMode demo_host (windows.Stderr demo_host).
Proof.
  assert (settled demo_host (windows.Stderr demo_host)) as H.
  { intros m Hm. vm_compute in Hm. inversion Hm. reflexivity. }
  split; [exact H | exact (proj1 (probe_leaves_mode demo_host H))].
Defined.

Lemma probe_environ w : environ (IsLightRendererSupported w).2 = environ w.
Proof.
  unfold IsLightRendererSupported.
  destruct (windows.GetConsoleMode w _); [done|].
  destruct (windows.SetConsoleMode w _ _) as [err w1] eqn:H1.
  assert (environ w1 = environ w) as E1.
  { change w1 with (err, w1).2. rewrite <- H1. apply SetConsoleMode_environ. }
  destruct (windows.GetConsoleMode w1 _); [done|].
  destruct (negb _); [done|].
  destruct (windows.SetConsoleMode w1 _ _) as [err2 w2] eqn:H2. simpl.
  rewrite <- E1. change w2 with (err2, w2).2. rewrite <- H2.
  apply SetConsoleMode_environ.
Qed.

(** C8. Whatever the console answers to the probe, [DefaultTheme] returns
    [Default16] when [ConEmuPID] is set to a non-empty value or
    [TCELL_TRUECOLOR] is set to [disable]. *)
Theorem DefaultTheme_overrides (w : Host) :
  os.Getenv w "ConEmuPID" ≠ EmptyString \/
  os.Getenv w "TCELL_TRUECOLOR" = "disable"%string ->
  (DefaultTheme w).1 = Default16.
Proof.
  intros H. unfold DefaultTheme.
  destruct (IsLightRendererSupported w) as [supported w1] eqn:Hp.
  assert (environ w1 = environ w) as E.
  { change w1 with (supported, w1).2. rewrite <- Hp. apply probe_environ. }
  unfold os.Getenv in *. rewrite E.
  destruct H as [H|H].
  - rewrite (bool_decide_eq_false_2 _ H). simpl. by rewrite orb_true_r.
  - rewrite (bool_decide_eq_true_2 _ H). by rewrite orb_true_r.
Qed.

Lemma DefaultTheme_overrides_witness :
  (IsLightRendererSupported conemu_host).1 = true /\
  (DefaultTheme conemu_host).1 = Default16.
Proof.
  split; [reflexivity|].
  apply (DefaultTheme_overrides conemu_host). left. vm_compute. discriminate.
Defined.

(** ** Start-up *)

(** C6. [initPlatform] returns an error exactly when [CONOUT$] or [CONIN$]
    names no console whose mode can be read, and nil otherwise. A failed
    [syscall.Open] is one way of being unreadable: the invalid handle it
    returns is no console. *)
Theorem initPlatform_error_iff (s : State) :
  modes (host s) !! syscall.InvalidHandle = None ->
  ((initPlatform s).1 ≠ None <->
     unreadable (host s) "CONOUT$" \/ unreadable (host s) "CONIN$")
  /\ (forall path, (syscall.Open (host s) path).2 ≠ None ->
        exists e, windows.GetConsoleMode (host s) (syscall.Open (host s) path).1
                  = inl e).
Proof.
  intros Hinv.
  assert (forall path, (syscall.Open (host s) path).2 ≠ None ->
    exists e, windows.GetConsoleMode (host s) (syscall.Open (host s) path).1
              = inl e) as Hopen.
  { intros path. unfold syscall.Open, windows.GetConsoleMode.
    destruct (files (host s) !! path); simpl; [done|].
    rewrite Hinv. eauto. }
  split; [|exact Hopen].
  assert (forall path, unreadable (host s) path <->
    exists e, windows.GetConsoleMode (host s) (syscall.Open (host s) path).1
              = inl e) as Hun.
  { intros path. unfold unreadable. split; [intros [H|H]; auto | auto]. }
  rewrite !Hun. clear Hun Hopen Hinv.
  unfold initPlatform.
  destruct (syscall.Open (host s) "CONOUT$") as [oh e1]. simpl.
  destruct (windows.GetConsoleMode (host s) oh) as [err|m] eqn:Ho.
  { simpl. split; [eauto | done]. }
  destruct (syscall.Open (host s) "CONIN$") as [ih e2]. simpl.
  destruct (windows.GetConsoleMode (host s) ih) as [err|m'] eqn:Hi; simpl.
  - split; [eauto | done].
  - split; [done|]. intros [[e H]|[e H]]; discriminate.
Qed.

Lemma initPlatform_error_iff_witness :
  (initPlatform (boot legacy_host id)).1 ≠ None <->
  unreadable legacy_host "CONOUT$" \/ unreadable legacy_host "CONIN$".
Proof.
  apply (initPlatform_error_iff (boot legacy_host id)). reflexivity.
Defined.

(** ** Geometry *)

(** C9. When the screen-buffer query fails, [findOffset] returns (-1, -1)
    and [Size] has the [COLUMNS] value (or the default width) as its width
    and the height policy applied to the [LINES] value (or the default
    height) as its height. When the query succeeds, [findOffset] returns the
    cursor's row and column. *)
Theorem geometry_fallback
  (getEnv : Host -> string -> Z -> Z) (defaultWidth defaultHeight : Z)
  (s : State) :
  match windows.GetConsoleScreenBufferInfo (host s) (outHandle (r s)) with
  | inl _ =>
      findOffset s = (-1, -1) /\
      Columns (Size getEnv defaultWidth defaultHeight s)
        = getEnv (host s) "COLUMNS" defaultWidth /\
      Lines (Size getEnv defaultWidth defaultHeight s)
        = maxHeightFunc (r s) (getEnv (host s) "LINES" defaultHeight)
  | inr bufferInfo =>
      findOffset s
        = (Y (CursorPosition bufferInfo), X (CursorPosition bufferInfo))
  end.
Proof.
  unfold findOffset, Size.
  destruct (windows.GetConsoleScreenBufferInfo _ _); simpl; auto.
Qed.

Example geometry_demo :
  findOffset demo_state = (9, 4) /\
  Size (fun _ _ d => d) 80 24 demo_state
  = {| Lines := 29; Columns := 119; XOffset := 0; YOffset := 0 |}.
Proof. split; reflexivity. Qed.

Example geometry_no_screen :
  findOffset (boot legacy_host (Z.min 20)) = (-1, -1) /\
  Size (fun _ _ d => d) 80 24 (boot legacy_host (Z.min 20))
  = {| Lines := 20; Columns := 80; XOffset := 0; YOffset := 0 |}.
Proof. split; reflexivity. Qed.

(** C10. Whether the screen-buffer query succeeds or fails, the last two
    fields of the [TermSize] that [Size] returns are 0. *)
Theorem Size_offsets_zero
  (getEnv : Host -> string -> Z -> Z) (defaultWidth defaultHeight : Z)
  (s : State) :
  XOffset (Size getEnv defaultWidth defaultHeight s) = 0 /\
  YOffset (Size getEnv defaultWidth defaultHeight s) = 0.
Proof.
  unfold Size.
  destruct (windows.GetConsoleScreenBufferInfo _ _); simpl; auto.
Qed.

(** ** The channel *)

Lemma recv_buffer s bc s' :
  recv s = Some (bc, s') ->
  buffer s = bc :: buffer s' /\ s' = set_chans (chans s') s /\
  length (chans s') = length (chans s).
Proof.
  unfold recv, buffer. intros H.
  destruct (ttyinChannel (r s)) as [ch|] eqn:Hch; simpl in *; [|done].
  destruct (chans s !! ch) as [q|] eqn:Hq; simpl in *; [|done].
  destruct q as [|x q']; [done|]. inversion H; subst. simpl.
  rewrite Hch. simpl. split; [|by rewrite length_insert].
  rewrite list_lookup_insert_eq; [done|]. by eapply lookup_lt_Some.
Qed.

Lemma recv_None_buffer s : recv s = None <-> buffer s = [].
Proof.
  unfold recv, buffer.
  destruct (ttyinChannel (r s)) as [ch|]; simpl; [|done].
  destruct (chans s !! ch) as [q|]; simpl; [|done].
  by destruct q.
Qed.

Lemma send_buffer x s s' :
  send x s = Some s' ->
  buffer s' = buffer s ++ [x] /\ s' = set_chans (chans s') s /\
  (length (buffer s) < chan_cap)%nat /\
  length (chans s') = length (chans s).
Proof.
  unfold send, buffer. intros H.
  destruct (ttyinChannel (r s)) as [ch|] eqn:Hch; simpl in *; [|done].
  destruct (chans s !! ch) as [q|] eqn:Hq; simpl in *; [|done].
  destruct (length q <? chan_cap)%nat eqn:Hlen; [|done].
  inversion H; subst. simpl. rewrite Hch. simpl.
  rewrite list_lookup_insert_eq by (by eapply lookup_lt_Some).
  repeat split; [by apply Nat.ltb_lt | by rewrite length_insert].
Qed.

Lemma buffer_set_goroutines g s : buffer (set_goroutines g s) = buffer s.
Proof. reflexivity. Qed.

Lemma buffer_restoreTerminal s s' :
  restoreTerminal s = Some s' -> buffer s' = buffer s.
Proof.
  unfold restoreTerminal. destruct (mutex (r s)); [done|].
  intros H. by inversion H.
Qed.

(** The two ways a [getch] call completes. *)
Lemma getch_cases nb entered c s v ok s1 :
  getch nb entered c s = Some ((v, ok), s1) ->
  (exists bc, recv s = Some (bc, s1) /\ v = int_of_byte bc /\ ok = true
              /\ c = CaseRecv)
  \/ (s1 = s /\ v = 0 /\ ok = false /\ nb = true /\ c = CaseAfter
      /\ entered + timeoutInterval <= now s).
Proof.
  unfold getch. intros H.
  destruct c.
  - left. destruct nb, (recv s) as [[bc s2]|]; simplify_eq/=; eauto 6.
  - right. destruct nb; [|done].
    destruct (entered + timeoutInterval <=? now s) eqn:Ht; simplify_eq/=.
    apply Z.leb_le in Ht. done.
Qed.

(** One step keeps the channel first-in first-out: what was buffered
    followed by what the step sent is what the step's [getch] returned
    followed by what is buffered now. *)
Lemma step_fifo e s s' o :
  step e s = Some (s', o) ->
  int_of_byte <$> (buffer s ++ pushed o)
  = received o ++ (int_of_byte <$> buffer s').
Proof.
  destruct e as [| |nb|c| |i a]; simpl; intros H.
  - inversion H; subst. simpl. by rewrite app_nil_r.
  - destruct (restoreTerminal s) as [s1|] eqn:Hr; simplify_eq/=.
    rewrite app_nil_r. by rewrite (buffer_restoreTerminal _ _ Hr).
  - destruct (getter s); simplify_eq/=. by rewrite app_nil_r.
  - destruct (getter s) as [[nb entered]|]; simplify_eq/=.
    destruct (getch nb entered c s) as [[[v ok] s1]|] eqn:Hg; simplify_eq/=.
    rewrite app_nil_r.
    apply getch_cases in Hg
      as [(bc & Hrecv & -> & -> & _)|(-> & -> & -> & _)].
    + apply recv_buffer in Hrecv as (-> & _). reflexivity.
    + reflexivity.
  - inversion H; subst. simpl. by rewrite app_nil_r.
  - destruct (goroutines s !! i) as [rd|]; simplify_eq/=.
    destruct (reader_step i a rd s) as [[[rd' s1] o1]|] eqn:Hs; simplify_eq/=.
    unfold reader_step in Hs.
    destruct (at_pc rd), a; simplify_eq/=; try by rewrite app_nil_r.
    + destruct (mutex (r s)); [done|].
      destruct (bool_decide _); simplify_eq/=; by rewrite app_nil_r.
    + destruct (send (b rd) s) as [s2|] eqn:Hsend; simplify_eq/=.
      apply send_buffer in Hsend as (Hb & _).
      rewrite buffer_set_goroutines, Hb.
      by rewrite fmap_app.
Qed.

Lemma pushed_app o1 o2 : pushed (o1 ++ o2) = pushed o1 ++ pushed o2.
Proof.
  induction o1 as [|[i x|v ok] o1 IH]; simpl; [done| |done].
  by rewrite IH.
Qed.

Lemma received_app o1 o2 : received (o1 ++ o2) = received o1 ++ received o2.
Proof.
  induction o1 as [|[i x|v [|]] o1 IH]; simpl; try done.
  by rewrite IH.
Qed.

Lemma run_fifo es s s' o :
  run es s = Some (s', o) ->
  int_of_byte <$> (buffer s ++ pushed o)
  = received o ++ (int_of_byte <$> buffer s').
Proof.
  revert s o. induction es as [|e es IH]; simpl; intros s o H.
  - simplify_eq/=. by rewrite app_nil_r.
  - destruct (step e s) as [[s1 o1]|] eqn:Hs; simplify_eq/=.
    destruct (run es s1) as [[s2 o2]|] eqn:Hr; simplify_eq/=.
    apply step_fifo in Hs. apply IH in Hr.
    rewrite pushed_app, received_app, app_assoc, fmap_app, Hs.
    rewrite <- !app_assoc, <- fmap_app, Hr. done.
Qed.

(** C5. The channel is first-in first-out from the goroutine's send to the
    value [getch] returns: over any run, the bytes buffered at the start
    followed by the bytes sent are the values [getch] returned (with
    [ok = true]) followed by the bytes still buffered, in this order; so a
    run that starts and ends with an empty channel returned exactly the
    bytes sent, in the order they were sent. In particular, after goroutine 0
    has sent 0x1B, '[' and 'A' with nobody receiving, three blocking [getch]
    calls return 0x1B, '[' and 'A'. *)
Theorem getch_fifo :
  (forall es s s' o,
     run es s = Some (s', o) ->
     int_of_byte <$> (buffer s ++ pushed o)
       = received o ++ (int_of_byte <$> buffer s')
     /\ (buffer s = [] -> buffer s' = [] ->
         received o = int_of_byte <$> pushed o))
  /\ (exists s',
        run arrow_scenario demo_state
          = Some (s', [Pushed 0 x1b; Pushed 0 x5b; Pushed 0 x41;
                       Returned 0x1b true; Returned 0x5b true;
                       Returned 0x41 true])
        /\ buffer s' = []).
Proof.
  split.
  - intros es s s' o H. pose proof (run_fifo _ _ _ _ H) as E.
    split; [exact E|]. intros H0 H1. rewrite H0, H1 in E.
    simpl in E. by rewrite app_nil_r in E.
  - eexists. split; vm_compute; reflexivity.
Qed.

Lemma getch_fifo_witness :
  exists s' o,
    run arrow_scenario demo_state = Some (s', o) /\
    int_of_byte <$> (buffer demo_state ++ pushed o)
      = received o ++ (int_of_byte <$> buffer s').
Proof.
  destruct (run arrow_scenario demo_state) as [[s' o]|] eqn:H.
  - exists s', o. split; [reflexivity|].
    exact (proj1 (proj1 getch_fifo arrow_scenario demo_state s' o H)).
  - vm_compute in H. discriminate H.
Defined.

(** ** What a run leaves unchanged *)

Lemma host_frame_refl w : host_frame w w.
Proof. by split. Qed.

Lemma host_frame_trans w1 w2 w3 :
  host_frame w1 w2 -> host_frame w2 w3 -> host_frame w1 w3.
Proof.
  intros [] []. split; try congruence.
  intros h. etrans; eauto.
Qed.

Lemma SetConsoleMode_frame w h m :
  host_frame w (windows.SetConsoleMode w h m).2.
Proof.
  split; try (unfold windows.SetConsoleMode;
    destruct (modes w !! h); [destruct (accepts w h m)|]; reflexivity).
  intros k. rewrite SetConsoleMode_modes.
  destruct (decide (k = h)) as [->|]; [|done].
  by rewrite fmap_is_Some.
Qed.

Lemma frame_refl s : frame s s.
Proof. split; auto using host_frame_refl. eauto. Qed.

Lemma frame_trans s1 s2 s3 : frame s1 s2 -> frame s2 s3 -> frame s1 s3.
Proof.
  intros [] []. split; try congruence.
  - eauto using host_frame_trans.
  - intros i rd Hi.
    destruct (fr_goroutines0 i rd Hi) as (rd' & Hi' & E').
    destruct (fr_goroutines1 i rd' Hi') as (rd'' & Hi'' & E'').
    exists rd''. split; congruence.
Qed.

Lemma frame_SetConsoleMode_ h m s : frame s (SetConsoleMode_ h m s).
Proof.
  split; try reflexivity; [apply SetConsoleMode_frame | eauto].
Qed.

Lemma frame_set_mutex l s : frame s (set_r (set_mutex l (r s)) s).
Proof. split; try reflexivity; [apply host_frame_refl | eauto]. Qed.

Lemma frame_go rd s : frame s (go rd s).
Proof.
  split; try reflexivity; [apply host_frame_refl|].
  intros i rd0 Hi. exists rd0. split; [|done].
  simpl. by apply lookup_app_l_Some.
Qed.

Lemma frame_setupTerminal s : frame s (setupTerminal s).
Proof.
  unfold setupTerminal.
  eapply frame_trans; [apply frame_SetConsoleMode_|].
  eapply frame_trans; [apply frame_SetConsoleMode_|].
  apply frame_go.
Qed.

Lemma frame_restoreTerminal s s' : restoreTerminal s = Some s' -> frame s s'.
Proof.
  unfold restoreTerminal. destruct (mutex (r s)); [done|].
  intros H. inversion H; subst; clear H.
  split; try reflexivity; [|eauto].
  cbn [host r set_r set_host set_counter SetConsoleMode_].
  eapply host_frame_trans; apply SetConsoleMode_frame.
Qed.

Ltac frame_tac :=
  split; simpl; try done; try apply host_frame_refl; eauto.

Lemma frame_set_chans c s :
  length c = length (chans s) -> frame s (set_chans c s).
Proof. intros H. frame_tac. Qed.

Lemma frame_set_getter g s : frame s (set_getter g s).
Proof. frame_tac. Qed.

Lemma frame_set_now t s : frame s (set_now t s).
Proof. frame_tac. Qed.

Lemma frame_update_reader i rd rd' s :
  goroutines s !! i = Some rd -> current rd' = current rd ->
  frame s (set_goroutines (<[i := rd']> (goroutines s)) s).
Proof.
  intros Hi Hc. split; try done; try apply host_frame_refl.
  intros j rdj Hj. simpl. destruct (decide (j = i)) as [->|Hne].
  - exists rd'. rewrite list_lookup_insert_eq by (by eapply lookup_lt_Some).
    split; congruence.
  - exists rdj. by rewrite list_lookup_insert_ne.
Qed.

(** What one step of a goroutine does to the state around it. *)
Lemma reader_step_cases i a rd s rd' s' o :
  reader_step i a rd s = Some (rd', s', o) ->
  current rd' = current rd /\
  ( (at_pc rd = AtRead /\ at_pc rd' = AtLock /\ s' = s /\ o = [] /\
     exists x, a = ReadOk x)
  \/ (at_pc rd = AtRead /\ rd' = rd /\ s' = s /\ o = [] /\ a = ReadErr)
  \/ (at_pc rd = AtLock /\ mutex (r s) = false /\ current rd ≠ counter s /\
      at_pc rd' = Exited /\ s' = s /\ o = [] /\ a = Lock)
  \/ (at_pc rd = AtLock /\ mutex (r s) = false /\ current rd = counter s /\
      at_pc rd' = AtSend /\ s' = set_r (set_mutex true (r s)) s /\ o = [] /\
      a = Lock)
  \/ (at_pc rd = AtSend /\ at_pc rd' = AtSetMode /\ send (b rd) s = Some s' /\
      o = [Pushed i (b rd)] /\ a = Send)
  \/ (at_pc rd = AtSetMode /\ at_pc rd' = AtRead /\
      s' = set_r (set_mutex false (r s))
             (SetConsoleMode_ (inHandle (r s)) consoleFlagsInput s) /\
      o = [] /\ a = SetModeUnlock) ).
Proof.
  unfold reader_step. intros H.
  destruct (at_pc rd) eqn:Hpc, a; simplify_eq/=; try (split; [done|]).
  - left. eauto 10.
  - right. left. done.
  - destruct (mutex (r s)) eqn:Hm; [done|].
    destruct (bool_decide (current rd ≠ counter s)) eqn:Hd; simplify_eq/=.
    + apply bool_decide_eq_true in Hd. split; [done|].
      right. right. left. done.
    + apply bool_decide_eq_false in Hd. apply dec_stable in Hd.
      split; [done|]. right. right. right. left. done.
  - destruct (send (b rd) s) as [s2|] eqn:Hsend; simplify_eq/=.
    split; [done|]. do 4 right. left. done.
  - do 5 right. done.
Qed.

Lemma step_frame e s s' o : step e s = Some (s', o) -> frame s s'.
Proof.
  destruct e as [| |nb|c| |i a]; simpl; intros H.
  - simplify_eq/=. apply frame_setupTerminal.
  - destruct (restoreTerminal s) as [s1|] eqn:Hr; simplify_eq/=.
    by apply frame_restoreTerminal.
  - destruct (getter s); simplify_eq/=. apply frame_set_getter.
  - destruct (getter s) as [[nb entered]|]; simplify_eq/=.
    destruct (getch nb entered c s) as [[[v ok] s1]|] eqn:Hg; simplify_eq/=.
    eapply frame_trans; [|apply frame_set_getter].
    apply getch_cases in Hg as [(bc & Hrecv & _)|(-> & _)];
      [|apply frame_refl].
    apply recv_buffer in Hrecv as (_ & -> & Hlen). by apply frame_set_chans.
  - simplify_eq/=. apply frame_set_now.
  - destruct (goroutines s !! i) as [rd|] eqn:Hi; simplify_eq/=.
    destruct (reader_step i a rd s) as [[[rd' s1] o1]|] eqn:Hs; simplify_eq/=.
    apply reader_step_cases in Hs as (Hc & Hs).
    assert (frame s s1 /\ goroutines s1 = goroutines s) as [Hf Hg].
    { destruct Hs as [(_ & _ & -> & _)|[(_ & _ & -> & _)|[(_ & _ & _ & _ & -> & _)
        |[(_ & _ & _ & _ & -> & _)|[(_ & _ & Hsend & _)|(_ & _ & -> & _)]]]]];
        try (split; [apply frame_refl|done]).
      - split; [apply frame_set_mutex|done].
      - apply send_buffer in Hsend as (_ & -> & _ & Hlen).
        split; [by apply frame_set_chans|done].
      - split; [|done].
        split; try done; [apply SetConsoleMode_frame | eauto]. }
    eapply frame_trans; [exact Hf|].
    apply frame_update_reader with rd; [congruence|done].
Qed.

Lemma run_frame es s s' o : run es s = Some (s', o) -> frame s s'.
Proof.
  revert s o. induction es as [|e es IH]; simpl; intros s o H.
  - simplify_eq/=. apply frame_refl.
  - destruct (step e s) as [[s1 o1]|] eqn:Hs; simplify_eq/=.
    destruct (run es s1) as [[s2 o2]|] eqn:Hr; simplify_eq/=.
    eapply frame_trans; eauto using step_frame.
Qed.

Lemma run_app es1 es2 s :
  run (es1 ++ es2) s =
  '(s1, o1) ← run es1 s; '(s2, o2) ← run es2 s1; Some (s2, o1 ++ o2).
Proof.
  revert s. induction es1 as [|e es1 IH]; simpl; intros s.
  - by destruct (run es2 s) as [[s2 o2]|].
  - destruct (step e s) as [[s1 o1]|]; simpl; [|done].
    rewrite IH. destruct (run es1 s1) as [[s2 o2]|]; simpl; [|done].
    destruct (run es2 s2) as [[s3 o3]|]; simpl; [|done].
    by rewrite app_assoc.
Qed.

Lemma run_snoc es e s s2 o :
  run (es ++ [e]) s = Some (s2, o) ->
  exists s1 o1 o2,
    run es s = Some (s1, o1) /\ step e s1 = Some (s2, o2) /\ o = o1 ++ o2.
Proof.
  rewrite run_app. intros H.
  destruct (run es s) as [[s1 o1]|]; simplify_eq/=.
  destruct (step e s1) as [[s3 o3]|] eqn:Hs; simplify_eq/=.
  exists s1, o1, o3. by rewrite app_nil_r.
Qed.

(** ** Start-up, seen from the state it leaves *)

Lemma initPlatform_ok s s0 :
  initPlatform s = (None, s0) ->
  windows.GetConsoleMode (host s) (inHandle (r s0))
    = inr (origStateInput (r s0)) /\
  windows.GetConsoleMode (host s) (outHandle (r s0))
    = inr (origStateOutput (r s0)) /\
  host_frame (host s) (host s0) /\
  ttyinChannel (r s0) = Some (length (chans s)) /\
  chans s0 = chans s ++ [[]] /\
  goroutines s0
    = goroutines s ++ [{| current := counter s; fd := inHandle (r s0);
                          b := x00; at_pc := AtRead |}] /\
  counter s0 = counter s /\ mutex (r s0) = mutex (r s).
Proof.
  unfold initPlatform.
  destruct (syscall.Open (host s) "CONOUT$") as [oh e1]. simpl.
  destruct (windows.GetConsoleMode (host s) oh) as [err|mo] eqn:Ho; [done|].
  destruct (syscall.Open (host s) "CONIN$") as [ih e2]. simpl.
  destruct (windows.GetConsoleMode (host s) ih) as [err|mi] eqn:Hi; [done|].
  intros H. inversion H; subst; clear H. simpl.
  split_and!; try done.
  eapply host_frame_trans; apply SetConsoleMode_frame.
Qed.

(** ** The channel over the cycles *)

(** C7, as the code has it. The channel is made once, by [initPlatform]
    (one new channel, empty). No event of a run makes or drops a channel or
    changes which channel the renderer uses, and [setupTerminal] and
    [restoreTerminal] leave the buffered bytes where they are: after
    [restoreTerminal] and a second [setupTerminal] the renderer reads from
    the same channel, with the same bytes buffered. *)
Theorem channel_made_once :
  (forall s s0, initPlatform s = (None, s0) ->
     ttyinChannel (r s0) = Some (length (chans s)) /\
     chans s0 = chans s ++ [[]])
  /\ (forall es s s' o, run es s = Some (s', o) ->
        ttyinChannel (r s') = ttyinChannel (r s) /\
        length (chans s') = length (chans s))
  /\ (forall s, chans (setupTerminal s) = chans s /\
                ttyinChannel (r (setupTerminal s)) = ttyinChannel (r s))
  /\ (forall s s1, restoreTerminal s = Some s1 ->
        chans s1 = chans s /\
        buffer (setupTerminal s1) = buffer s).
Proof.
  split_and!.
  - intros s s0 H. by destruct (initPlatform_ok _ _ H) as (_ & _ & _ & ? & ? & _).
  - intros es s s' o H. by destruct (run_frame _ _ _ _ H).
  - done.
  - intros s s1 H. unfold restoreTerminal in H.
    destruct (mutex (r s)); [done|]. by inversion H.
Qed.

Lemma channel_made_once_witness :
  ttyinChannel (r demo_state) = Some 0%nat /\ chans demo_state = [[]] /\
  exists s', run reenter_scenario demo_state
             = Some (s', [Pushed 0 x1b; Returned 0x1b true]) /\
    ttyinChannel (r s') = ttyinChannel (r demo_state) /\
    length (chans s') = length (chans demo_state).
Proof.
  destruct channel_made_once as (Hinit & Hrun & _).
  assert (initPlatform (boot demo_host id) = (None, demo_state)) as Hi
    by (vm_compute; reflexivity).
  destruct (Hinit _ _ Hi) as [Hc Hq].
  split; [exact Hc|]. split; [exact Hq|].
  destruct (run reenter_scenario demo_state) as [[s' o]|] eqn:H;
    [|vm_compute in H; discriminate H].
  exists s'. split; [|exact (Hrun _ _ _ _ H)].
  vm_compute in H. inversion H. reflexivity.
Defined.

(** C7, as stated, fails: on [demo_host], across [setupTerminal] (in
    [initPlatform]), [restoreTerminal] and [setupTerminal] again there is
    still the one channel of [initPlatform], and a byte sent to it in the
    first cycle is what [getch] returns in the second. *)
Lemma channel_reused_counterexample :
  exists s',
    run reenter_scenario demo_state
      = Some (s', [Pushed 0 x1b; Returned 0x1b true]) /\
    ttyinChannel (r demo_state) = Some 0%nat /\
    ttyinChannel (r s') = ttyinChannel (r demo_state) /\
    length (chans s') = 1%nat.
Proof. eexists. split_and!; vm_compute; reflexivity. Qed.

(** ** The generation counter *)

Lemma incr64_small n : 0 <= n -> n + 1 < 2 ^ 64 -> incr64 n = n + 1.
Proof. intros. unfold incr64. apply Z.mod_small. lia. Qed.

(** Replacing goroutine [i] keeps the invariant, as long as the mutex is
    handed over consistently. *)
Lemma inv_update n s s' i rd rd' :
  generation_inv n s ->
  goroutines s !! i = Some rd ->
  counter s' = counter s ->
  goroutines s' = <[i := rd']> (goroutines s) ->
  current rd' = current rd ->
  (holds_mutex rd' = true ->
   mutex (r s') = true /\
   (holds_mutex rd = true \/
    (mutex (r s) = false /\ current rd = counter s))) ->
  (holds_mutex rd = false -> mutex (r s) = true -> mutex (r s') = true) ->
  generation_inv n s'.
Proof.
  intros [Hn Hc Hcur Hh Hu] Hi Ec Eg Ecur H1 H2.
  assert (forall j rdj, j ≠ i -> goroutines s' !! j = Some rdj ->
            goroutines s !! j = Some rdj) as Hother.
  { intros j rdj Hne. rewrite Eg. by rewrite list_lookup_insert_ne. }
  assert (goroutines s' !! i = Some rd') as Hi'.
  { rewrite Eg. apply list_lookup_insert_eq. by eapply lookup_lt_Some. }
  assert (forall j rdj, j ≠ i -> goroutines s !! j = Some rdj ->
            holds_mutex rdj = true ->
            holds_mutex rd = false /\ mutex (r s) = true) as Hexcl.
  { intros j rdj Hne Hj Hhj. split; [|by eapply Hh].
    destruct (holds_mutex rd) eqn:Hhrd; [|done].
    exfalso. apply Hne. by eapply Hu. }
  split.
  - done.
  - congruence.
  - intros j rdj Hj. rewrite Ec. destruct (decide (j = i)) as [->|Hne].
    + assert (rdj = rd') as -> by congruence. rewrite Ecur. eauto.
    + eauto.
  - intros j rdj Hj Hhj. rewrite Ec. destruct (decide (j = i)) as [->|Hne].
    + assert (rdj = rd') as -> by congruence.
      destruct (H1 Hhj) as [Hm [Hold|[Hfree Hgen]]].
      * split; [done|]. rewrite Ecur. by eapply Hh.
      * split; [done|]. congruence.
    + pose proof (Hother _ _ Hne Hj) as Hj0.
      destruct (Hexcl _ _ Hne Hj0 Hhj) as [Hrd Hm].
      split; [by apply H2|]. by eapply Hh.
  - intros j k rdj rdk Hj Hk Hhj Hhk.
    destruct (decide (j = i)) as [->|Hnej], (decide (k = i)) as [->|Hnek];
      try done.
    + exfalso. assert (rdj = rd') as -> by congruence.
      pose proof (Hother _ _ Hnek Hk) as Hk0.
      destruct (Hexcl _ _ Hnek Hk0 Hhk) as [Hrd Hm].
      destruct (H1 Hhj) as [_ [Hold|[Hfree _]]]; congruence.
    + exfalso. assert (rdk = rd') as -> by congruence.
      pose proof (Hother _ _ Hnej Hj) as Hj0.
      destruct (Hexcl _ _ Hnej Hj0 Hhj) as [Hrd Hm].
      destruct (H1 Hhk) as [_ [Hold|[Hfree _]]]; congruence.
    + eapply Hu; eauto.
Qed.

(** A change that touches neither the counter, nor the goroutines, nor the
    mutex keeps the invariant. *)
Lemma inv_same n s s' :
  generation_inv n s ->
  counter s' = counter s -> goroutines s' = goroutines s ->
  mutex (r s') = mutex (r s) ->
  generation_inv n s'.
Proof.
  intros [Hn Hc Hcur Hh Hu] Ec Eg Em.
  split; rewrite ?Ec, ?Eg, ?Em; done.
Qed.

Lemma inv_spawn n s s' rd :
  generation_inv n s ->
  goroutines s' = goroutines s ++ [rd] -> counter s' = counter s ->
  mutex (r s') = mutex (r s) ->
  current rd = counter s -> holds_mutex rd = false ->
  generation_inv n s'.
Proof.
  intros [Hn Hc Hcur Hh Hu] Eg Ec Em Er Hrd.
  assert (forall j rdj, goroutines s' !! j = Some rdj ->
            goroutines s !! j = Some rdj \/ rdj = rd) as Hcases.
  { intros j rdj Hj. rewrite Eg in Hj.
    apply lookup_app_Some in Hj as [Hj|[_ Hj]]; [by left|].
    right. apply list_lookup_singleton_Some in Hj as [_ Hj]. done. }
  split; rewrite ?Ec, ?Em.
  - done.
  - done.
  - intros j rdj Hj. destruct (Hcases _ _ Hj) as [Hj0| ->]; [eauto|]. lia.
  - intros j rdj Hj Hhj.
    destruct (Hcases _ _ Hj) as [Hj0| ->]; [eauto|congruence].
  - intros j k rdj rdk Hj Hk Hhj Hhk.
    destruct (Hcases _ _ Hj) as [Hj0| ->]; [|congruence].
    destruct (Hcases _ _ Hk) as [Hk0| ->]; [|congruence].
    eauto.
Qed.

Lemma inv_setupTerminal n s :
  generation_inv n s -> generation_inv n (setupTerminal s).
Proof.
  intros Hinv. eapply inv_spawn; [exact Hinv|reflexivity..].
Qed.

Lemma inv_restoreTerminal n s s' :
  generation_inv n s -> restoreTerminal s = Some s' -> n + 1 < 2 ^ 64 ->
  generation_inv (n + 1) s'.
Proof.
  intros [Hn Hc Hcur Hh Hu] H Hlt. unfold restoreTerminal in H.
  destruct (mutex (r s)) eqn:Hm; [done|]. inversion H; subst; clear H.
  assert (forall j rdj, goroutines s !! j = Some rdj ->
            holds_mutex rdj = false) as Hfree.
  { intros j rdj Hj. destruct (holds_mutex rdj) eqn:Hhj; [|done].
    destruct (Hh _ _ Hj Hhj). congruence. }
  split; simpl.
  - lia.
  - by apply incr64_small.
  - intros j rdj Hj. rewrite incr64_small by done.
    specialize (Hcur _ _ Hj). lia.
  - intros j rdj Hj Hhj. rewrite (Hfree _ _ Hj) in Hhj. done.
  - intros j k rdj rdk Hj Hk Hhj. rewrite (Hfree _ _ Hj) in Hhj. done.
Qed.

Lemma step_inv n e s s' o :
  generation_inv n s -> step e s = Some (s', o) ->
  n + restores [e] < 2 ^ 64 ->
  generation_inv (n + restores [e]) s'.
Proof.
  intros Hinv H Hlt.
  destruct e as [| |nb|c| |i a]; simpl in *; rewrite ?Z.add_0_r in *.
  - simplify_eq/=. by apply inv_setupTerminal.
  - destruct (restoreTerminal s) as [s1|] eqn:Hr; simplify_eq/=.
    eapply inv_restoreTerminal; eauto.
  - destruct (getter s); simplify_eq/=. by eapply inv_same.
  - destruct (getter s) as [[nb entered]|]; simplify_eq/=.
    destruct (getch nb entered c s) as [[[v ok] s1]|] eqn:Hg; simplify_eq/=.
    apply getch_cases in Hg as [(bc & Hrecv & _)|(-> & _)].
    + apply recv_buffer in Hrecv as (_ & -> & _). by eapply inv_same.
    + by eapply inv_same.
  - simplify_eq/=. by eapply inv_same.
  - destruct (goroutines s !! i) as [rd|] eqn:Hi; simplify_eq/=.
    destruct (reader_step i a rd s) as [[[rd' s1] o1]|] eqn:Hs; simplify_eq/=.
    apply reader_step_cases in Hs as (Hc & Hs).
    destruct Hs as [(Hpc & Hpc' & -> & _)|[(Hpc & -> & -> & _)
      |[(Hpc & Hm & Hne & Hpc' & -> & _)|[(Hpc & Hm & Heq & Hpc' & -> & _)
      |[(Hpc & Hpc' & Hsend & _)|(Hpc & Hpc' & -> & _)]]]]].
    + eapply inv_update; eauto; unfold holds_mutex; rewrite ?Hpc, ?Hpc'; done.
    + eapply inv_update; eauto; unfold holds_mutex; rewrite ?Hpc; done.
    + eapply inv_update; eauto; unfold holds_mutex; rewrite ?Hpc, ?Hpc'; done.
    + eapply inv_update; eauto; unfold holds_mutex; rewrite ?Hpc, ?Hpc';
        simpl; eauto.
    + apply send_buffer in Hsend as (_ & -> & _).
      eapply inv_update; eauto; unfold holds_mutex; rewrite ?Hpc, ?Hpc';
        simpl; try done.
      intros _. split; [|by left].
      destruct Hinv as [_ _ _ Hh _]. eapply Hh; eauto.
      unfold holds_mutex. by rewrite Hpc.
    + eapply inv_update; eauto; unfold holds_mutex; rewrite ?Hpc, ?Hpc';
        simpl; done.
Qed.

Lemma restores_app es1 es2 : restores (es1 ++ es2) = restores es1 + restores es2.
Proof.
  induction es1 as [|[] es1 IH]; simpl; lia.
Qed.

Lemma restores_nonneg es : 0 <= restores es.
Proof. induction es as [|[] es IH]; simpl; lia. Qed.

Lemma run_cons e es s s' o :
  run (e :: es) s = Some (s', o) ->
  exists s1 o1 o2,
    step e s = Some (s1, o1) /\ run es s1 = Some (s', o2) /\ o = o1 ++ o2.
Proof.
  simpl. intros H.
  destruct (step e s) as [[s1 o1]|] eqn:Hs; simplify_eq/=.
  destruct (run es s1) as [[s2 o2]|] eqn:Hr; simplify_eq/=.
  do 3 eexists. split_and!; [reflexivity|exact Hr|reflexivity].
Qed.

Lemma restores_cons e es : restores (e :: es) = restores [e] + restores es.
Proof. apply (restores_app [e] es). Qed.

Lemma run_inv n es s s' o :
  generation_inv n s -> run es s = Some (s', o) ->
  n + restores es < 2 ^ 64 ->
  generation_inv (n + restores es) s'.
Proof.
  revert n s o. induction es as [|e es IH]; intros n s o Hinv H Hlt.
  - simpl in *. simplify_eq/=. by rewrite Z.add_0_r.
  - apply run_cons in H as (s1 & o1 & o2 & Hs & Hr & ->).
    rewrite restores_cons in *.
    pose proof (restores_nonneg es).
    rewrite Z.add_assoc. eapply IH; [|exact Hr|lia].
    eapply step_inv; eauto. lia.
Qed.

(** Only a goroutine that stands before the send, the mutex held, sends. *)
Lemma step_pushed e s s' o i x :
  step e s = Some (s', o) -> Pushed i x ∈ o ->
  exists rd, goroutines s !! i = Some rd /\ at_pc rd = AtSend /\ b rd = x.
Proof.
  intros H Hin.
  destruct e as [| |nb|c| |j a]; simpl in H.
  - simplify_eq/=. by apply elem_of_nil in Hin.
  - destruct (restoreTerminal s); simplify_eq/=. by apply elem_of_nil in Hin.
  - destruct (getter s); simplify_eq/=. by apply elem_of_nil in Hin.
  - destruct (getter s) as [[nb entered]|]; simplify_eq/=.
    destruct (getch nb entered c s) as [[[v ok] s1]|]; simplify_eq/=.
    apply list_elem_of_singleton in Hin. done.
  - simplify_eq/=. by apply elem_of_nil in Hin.
  - destruct (goroutines s !! j) as [rd|] eqn:Hj; simplify_eq/=.
    destruct (reader_step j a rd s) as [[[rd' s1] o1]|] eqn:Hs; simplify_eq/=.
    apply reader_step_cases in Hs as (_ & Hs).
    destruct Hs as [(_ & _ & _ & -> & _)|[(_ & _ & _ & -> & _)
      |[(_ & _ & _ & _ & _ & -> & _)|[(_ & _ & _ & _ & _ & -> & _)
      |[(Hpc & _ & _ & -> & _)|(_ & _ & _ & -> & _)]]]]];
      try by apply elem_of_nil in Hin.
    apply list_elem_of_singleton in Hin. simplify_eq/=. eauto.
Qed.

(** A goroutine whose generation is behind the counter sends nothing, for
    as long as the counter does not wrap around. *)
Lemma run_stale n es s s' o i rd :
  generation_inv n s -> goroutines s !! i = Some rd ->
  current rd < counter s ->
  run es s = Some (s', o) -> n + restores es < 2 ^ 64 ->
  forall x, Pushed i x ∉ o.
Proof.
  revert n s o rd. induction es as [|e es IH]; intros n s o rd Hinv Hi Hlt H Hb x.
  - simpl in H. simplify_eq/=. apply not_elem_of_nil.
  - apply run_cons in H as (s1 & o1 & o2 & Hs & Hr & ->).
    rewrite restores_cons in Hb.
    pose proof (restores_nonneg es). pose proof (restores_nonneg [e]).
    intros [Hin|Hin]%elem_of_app.
    + destruct (step_pushed _ _ _ _ _ _ Hs Hin) as (rd0 & Hi0 & Hpc & _).
      assert (rd0 = rd) as -> by congruence.
      destruct Hinv as [_ _ _ Hh _].
      destruct (Hh i rd Hi) as [_ E]; [|lia].
      unfold holds_mutex. by rewrite Hpc.
    + assert (generation_inv (n + restores [e]) s1) as Hinv1
        by (eapply step_inv; eauto; lia).
      destruct (step_frame _ _ _ _ Hs) as [_ _ _ _ _ _ _ Hg].
      destruct (Hg _ _ Hi) as (rd1 & Hi1 & Ec).
      revert Hin. eapply IH; [exact Hinv1|exact Hi1| |exact Hr|lia].
      rewrite Ec. rewrite (inv_counter _ _ Hinv1).
      rewrite <- (inv_counter _ _ Hinv). lia.
Qed.

Lemma inv_boot w mh s0 :
  initPlatform (boot w mh) = (None, s0) -> generation_inv 0 s0.
Proof.
  intros H.
  destruct (initPlatform_ok _ _ H) as (_ & _ & _ & _ & _ & Hg & Hc & Hm).
  eapply inv_spawn; [|exact Hg|exact Hc|exact Hm|done|done].
  split; simpl; try done.
Qed.

(** Right after [restoreTerminal], every goroutine is behind the counter. *)
Lemma restoreTerminal_stale n s s' i rd :
  generation_inv n s -> restoreTerminal s = Some s' -> n + 1 < 2 ^ 64 ->
  goroutines s' !! i = Some rd -> current rd < counter s'.
Proof.
  intros Hinv H Hlt Hi.
  pose proof (inv_restoreTerminal _ _ _ Hinv H Hlt) as Hinv'.
  rewrite (inv_counter _ _ Hinv').
  assert (goroutines s' = goroutines s) as Eg.
  { unfold restoreTerminal in H. destruct (mutex (r s)); [done|].
    by inversion H. }
  rewrite Eg in Hi. destruct Hinv as [_ Hc Hcur _ _].
  specialize (Hcur _ _ Hi). lia.
Qed.

(** A quiet event starts no goroutine, and changes the host only when a
    goroutine that holds the mutex sets the input mode again. *)
Lemma step_quiet_shape e s s' o :
  quiet e = true -> step e s = Some (s', o) ->
  length (goroutines s') = length (goroutines s) /\
  (host s' = host s \/
   exists i rd, goroutines s !! i = Some rd /\ at_pc rd = AtSetMode).
Proof.
  intros Hq H.
  destruct e as [| |nb|c| |i a]; try done; simpl in H.
  - destruct (getter s); simplify_eq/=. auto.
  - destruct (getter s) as [[nb entered]|]; simplify_eq/=.
    destruct (getch nb entered c s) as [[[v ok] s1]|] eqn:Hg; simplify_eq/=.
    apply getch_cases in Hg as [(bc & Hrecv & _)|(-> & _)]; [|auto].
    apply recv_buffer in Hrecv as (_ & -> & _). auto.
  - simplify_eq/=. auto.
  - destruct (goroutines s !! i) as [rd|] eqn:Hi; simplify_eq/=.
    destruct (reader_step i a rd s) as [[[rd' s1] o1]|] eqn:Hs; simplify_eq/=.
    rewrite length_insert.
    apply reader_step_cases in Hs as (_ & Hs).
    destruct Hs as [(_ & _ & -> & _)|[(_ & _ & -> & _)|[(_ & _ & _ & _ & -> & _)
      |[(_ & _ & _ & _ & -> & _)|[(_ & _ & Hsend & _)|(Hpc & _ & -> & _)]]]]];
      auto.
    + apply send_buffer in Hsend as (_ & -> & _). auto.
    + split; [done|]. right. eauto.
Qed.

(** While every goroutine is behind the counter, a quiet event leaves the
    host as it is, and every goroutine behind the counter. *)
Lemma step_quiet n e s s' o :
  generation_inv n s -> all_stale s -> n < 2 ^ 64 -> quiet e = true ->
  step e s = Some (s', o) ->
  host s' = host s /\ generation_inv n s' /\ all_stale s'.
Proof.
  intros Hinv Hst Hn Hq H.
  assert (restores [e] = 0) as E0 by (by destruct e).
  assert (generation_inv n s') as Hinv'.
  { replace n with (n + restores [e]) by lia.
    eapply step_inv; eauto. lia. }
  destruct (step_quiet_shape _ _ _ _ Hq H) as [Hlen Hhost].
  split_and!; [|done|].
  - destruct Hhost as [?|(i & rd & Hi & Hpc)]; [done|].
    exfalso. specialize (Hst _ _ Hi).
    destruct Hinv as [_ _ _ Hh _]. destruct (Hh _ _ Hi) as [_ E]; [|lia].
    unfold holds_mutex. by rewrite Hpc.
  - intros j rdj Hj.
    rewrite (inv_counter _ _ Hinv'), <- (inv_counter _ _ Hinv).
    destruct (lookup_lt_is_Some_2 (goroutines s) j) as [rd Hj0].
    { rewrite <- Hlen. by eapply lookup_lt_Some. }
    destruct (step_frame _ _ _ _ H) as [_ _ _ _ _ _ _ Hg].
    destruct (Hg _ _ Hj0) as (rd' & Hj' & Ec).
    assert (rd' = rdj) as -> by congruence.
    rewrite Ec. eauto.
Qed.

Lemma run_quiet n es s s' o :
  generation_inv n s -> all_stale s -> n < 2 ^ 64 ->
  forallb quiet es = true -> run es s = Some (s', o) ->
  host s' = host s.
Proof.
  revert s o. induction es as [|e es IH]; intros s o Hinv Hst Hn Hq H.
  - simpl in H. by simplify_eq.
  - apply run_cons in H as (s1 & o1 & o2 & Hs & Hr & ->).
    simpl in Hq. apply andb_true_iff in Hq as [Hq Hqs].
    destruct (step_quiet _ _ _ _ _ Hinv Hst Hn Hq Hs) as (E & Hinv1 & Hst1).
    rewrite <- E. eauto.
Qed.

(** C2. Take any run from a successful [initPlatform] up to a return of
    [restoreTerminal], and any goroutine that exists at that moment (it was
    started under an earlier generation). Its generation differs from the
    counter, and in whatever follows (more calls, more goroutines, any
    interleaving) it never sends a byte to the channel: when it takes the
    mutex after a read it leaves its loop, the channel untouched and the
    mutex free again. So the values [getch] returns afterwards are bytes
    that were buffered already or that other goroutines sent. The counter is
    a uint64: the run is taken to hold fewer than 2^64 calls of
    [restoreTerminal]. *)
Theorem stale_reader_never_pushes
  (w : Host) (mh : Z -> Z) (s0 s1 s2 : State) (es0 es : list event)
  (o1 o : list obs) (i : nat) :
  initPlatform (boot w mh) = (None, s0) ->
  run (es0 ++ [Restore]) s0 = Some (s1, o1) ->
  (i < length (goroutines s1))%nat ->
  run es s1 = Some (s2, o) ->
  restores (es0 ++ [Restore] ++ es) < 2 ^ 64 ->
  (exists rd, goroutines s1 !! i = Some rd /\ current rd ≠ counter s1)
  /\ (forall x, Pushed i x ∉ o)
  /\ (forall s3 o3, step (Go i Lock) s2 = Some (s3, o3) ->
        o3 = [] /\ chans s3 = chans s2 /\ mutex (r s3) = mutex (r s2) /\
        exists rd3, goroutines s3 !! i = Some rd3 /\ at_pc rd3 = Exited)
  /\ int_of_byte <$> (buffer s1 ++ pushed o)
     = received o ++ (int_of_byte <$> buffer s2).
Proof.
  intros Hinit Hrun1 Hlen Hrun Hb.
  rewrite !restores_app in Hb.
  pose proof (restores_nonneg es0). pose proof (restores_nonneg es).
  change (restores [Restore]) with 1 in Hb.
  pose proof (inv_boot _ _ _ Hinit) as Hinv0.
  destruct (run_snoc _ _ _ _ _ Hrun1) as (s1' & o1' & o2' & Hrun0 & Hstep & _).
  assert (generation_inv (0 + restores es0) s1') as Hinv1'
    by (eapply run_inv; eauto; lia).
  simpl in Hstep.
  destruct (restoreTerminal s1') as [s1''|] eqn:Hr; simplify_eq/=.
  assert (generation_inv (0 + restores es0 + 1) s1) as Hinv1
    by (eapply inv_restoreTerminal; [exact Hinv1'|exact Hr|lia]).
  destruct (lookup_lt_is_Some_2 _ _ Hlen) as [rd Hi].
  assert (current rd < counter s1) as Hst
    by (eapply (restoreTerminal_stale (0 + restores es0));
        [exact Hinv1'|exact Hr|lia|exact Hi]).
  split_and!.
  - exists rd. split; [done|lia].
  - eapply run_stale; eauto. lia.
  - intros s3 o3 Hs3.
    assert (generation_inv (0 + restores es0 + 1 + restores es) s2) as Hinv2
      by (eapply run_inv; eauto; lia).
    destruct (run_frame _ _ _ _ Hrun) as [_ _ _ _ _ _ _ Hg].
    destruct (Hg _ _ Hi) as (rd2 & Hi2 & Ec).
    assert (current rd2 < counter s2) as Hst2.
    { rewrite Ec, (inv_counter _ _ Hinv2).
      rewrite (inv_counter _ _ Hinv1) in Hst. lia. }
    simpl in Hs3. rewrite Hi2 in Hs3. simpl in Hs3.
    destruct (reader_step i Lock rd2 s2) as [[[rd3 s3'] o3']|] eqn:Hrs;
      simplify_eq/=.
    apply reader_step_cases in Hrs as (_ & Hrs).
    destruct Hrs as [(_ & _ & _ & _ & [x ?])|[(_ & _ & _ & _ & ?)
      |[(_ & _ & _ & Hpc & -> & -> & _)|[(_ & _ & Heq & _)
      |[(_ & _ & _ & _ & ?)|(_ & _ & _ & _ & ?)]]]]]; try done; try lia.
    split_and!; try done. exists rd3. split; [|done].
    simpl. apply list_lookup_insert_eq. by eapply lookup_lt_Some.
  - by eapply run_fifo.
Qed.

Lemma stale_reader_never_pushes_witness :
  exists s1 s2,
    run (feed 0 x1b ++ [Restore]) demo_state = Some (s1, [Pushed 0 x1b]) /\
    run stale_scenario s1 = Some (s2, [Pushed 1 x42]) /\
    forall x, Pushed 0%nat x ∉ [Pushed 1%nat x42].
Proof.
  destruct (run (feed 0 x1b ++ [Restore]) demo_state) as [[s1 o1]|] eqn:H1;
    [|vm_compute in H1; discriminate H1].
  destruct (run stale_scenario s1) as [[s2 o]|] eqn:H2.
  - assert (o1 = [Pushed 0%nat x1b]) as E1.
    { vm_compute in H1. by inversion H1. }
    assert (o = [Pushed 1%nat x42]) as E2.
    { vm_compute in H1. inversion H1; subst. vm_compute in H2. by inversion H2. }
    exists s1, s2. rewrite <- E1, <- E2. split; [reflexivity|].
    split; [exact H2|].
    assert (initPlatform (boot demo_host id) = (None, demo_state)) as Hinit
      by (vm_compute; reflexivity).
    assert (0 < length (goroutines s1))%nat as Hlen.
    { vm_compute in H1. inversion H1. simpl. lia. }
    assert (restores (feed 0 x1b ++ [Restore] ++ stale_scenario) < 2 ^ 64)
      as Hb by (vm_compute; reflexivity).
    exact (proj1 (proj2
      (stale_reader_never_pushes _ _ _ _ _ _ _ _ _ _ Hinit H1 Hlen H2 Hb))).
  - exfalso. vm_compute in H1. inversion H1; subst.
    vm_compute in H2. discriminate H2.
Defined.

(** ** Restoring the terminal *)

(** The two console modes right after [restoreTerminal]. *)
Lemma restoreTerminal_modes s s' :
  restoreTerminal s = Some s' ->
  inHandle (r s) ≠ outHandle (r s) ->
  is_Some (modes (host s) !! inHandle (r s)) ->
  is_Some (modes (host s) !! outHandle (r s)) ->
  accepts (host s) (inHandle (r s))
    (Z.lor (origStateInput (r s)) windows.ENABLE_VIRTUAL_TERMINAL_INPUT) = true ->
  accepts (host s) (outHandle (r s)) (origStateOutput (r s)) = true ->
  windows.GetConsoleMode (host s') (inHandle (r s'))
    = inr (Z.lor (origStateInput (r s')) windows.ENABLE_VIRTUAL_TERMINAL_INPUT) /\
  windows.GetConsoleMode (host s') (outHandle (r s'))
    = inr (origStateOutput (r s')).
Proof.
  unfold restoreTerminal. destruct (mutex (r s)); [done|].
  intros H Hne [mi Hmi] [mo Hmo] Hai Hao. inversion H; subst; clear H.
  unfold windows.GetConsoleMode.
  cbn [host r set_r set_host set_counter SetConsoleMode_ set_mutex
       inHandle outHandle origStateInput origStateOutput].
  rewrite !SetConsoleMode_modes, SetConsoleMode_accepts.
  repeat case_decide; try congruence.
  by rewrite Hmi, Hmo, Hai, Hao.
Qed.

(** C1, as the code has it. After a successful [initPlatform] at process
    start, whatever calls of [setupTerminal], [restoreTerminal] and [getch]
    and whatever steps of the reader goroutines follow, after a final
    [restoreTerminal], and whatever the goroutines do from then on (as long
    as [setupTerminal] is not called again), the output mode is the mode
    captured in [origStateOutput], and the input mode is the mode captured
    in [origStateInput] with [ENABLE_VIRTUAL_TERMINAL_INPUT] switched on;
    both captured modes are those the consoles were in when [initPlatform]
    began. The two handles are taken to differ, the console driver to accept
    the two modes being set, and [restoreTerminal] to have been called fewer
    than 2^64 times. *)
Theorem restore_modes
  (w : Host) (mh : Z -> Z) (s0 s2 s3 : State) (es es' : list event)
  (o o' : list obs) :
  initPlatform (boot w mh) = (None, s0) ->
  run (es ++ [Restore]) s0 = Some (s2, o) ->
  forallb quiet es' = true -> run es' s2 = Some (s3, o') ->
  restores (es ++ [Restore]) < 2 ^ 64 ->
  inHandle (r s0) ≠ outHandle (r s0) ->
  accepts w (inHandle (r s0))
    (Z.lor (origStateInput (r s0)) windows.ENABLE_VIRTUAL_TERMINAL_INPUT) = true ->
  accepts w (outHandle (r s0)) (origStateOutput (r s0)) = true ->
  windows.GetConsoleMode w (inHandle (r s0))
    = inr (origStateInput (r s0)) /\
  windows.GetConsoleMode w (outHandle (r s0))
    = inr (origStateOutput (r s0)) /\
  origStateInput (r s3) = origStateInput (r s0) /\
  origStateOutput (r s3) = origStateOutput (r s0) /\
  windows.GetConsoleMode (host s3) (inHandle (r s3))
    = inr (Z.lor (origStateInput (r s0)) windows.ENABLE_VIRTUAL_TERMINAL_INPUT) /\
  windows.GetConsoleMode (host s3) (outHandle (r s3))
    = inr (origStateOutput (r s0)).
Proof.
  intros Hinit Hrun Hq Hrun' Hb Hne Hai Hao.
  destruct (initPlatform_ok _ _ Hinit) as (Hi & Ho & Hf0 & _).
  simpl in Hi, Ho, Hf0.
  pose proof (inv_boot _ _ _ Hinit) as Hinv0.
  rewrite restores_app in Hb. change (restores [Restore]) with 1 in Hb.
  pose proof (restores_nonneg es).
  apply run_snoc in Hrun as (s1 & o1 & o2 & Hrun & Hstep & _).
  simpl in Hstep.
  destruct (restoreTerminal s1) as [s2'|] eqn:Hr; simplify_eq/=.
  assert (generation_inv (0 + restores es) s1) as Hinv1
    by (eapply run_inv; eauto; lia).
  assert (generation_inv (0 + restores es + 1) s2) as Hinv2
    by (eapply inv_restoreTerminal; [exact Hinv1|exact Hr|lia]).
  assert (all_stale s2) as Hst.
  { intros i rd Hrd.
    eapply (restoreTerminal_stale (0 + restores es));
      [exact Hinv1|exact Hr|lia|exact Hrd]. }
  assert (host s3 = host s2) as Eh
    by (eapply run_quiet; [exact Hinv2|exact Hst|lia|exact Hq|exact Hrun']).
  pose proof (run_frame _ _ _ _ Hrun) as [Fh1 Foi1 Foo1 Fih1 Foh1 _ _ _].
  pose proof (frame_restoreTerminal _ _ Hr) as [_ Foi2 Foo2 Fih2 Foh2 _ _ _].
  pose proof (run_frame _ _ _ _ Hrun') as [_ Foi3 Foo3 Fih3 Foh3 _ _ _].
  assert (forall h m, windows.GetConsoleMode w h = inr m ->
            is_Some (modes (host s1) !! h)) as Hcons.
  { intros h m Hm. apply (hf_consoles _ _ Fh1), (hf_consoles _ _ Hf0).
    unfold windows.GetConsoleMode in Hm.
    destruct (modes w !! h); [eauto|done]. }
  destruct (restoreTerminal_modes _ _ Hr) as [Ein Eout].
  { by rewrite Fih1, Foh1. }
  { rewrite Fih1. eauto. }
  { rewrite Foh1. eauto. }
  { by rewrite (hf_accepts _ _ Fh1), (hf_accepts _ _ Hf0), Fih1, Foi1. }
  { by rewrite (hf_accepts _ _ Fh1), (hf_accepts _ _ Hf0), Foh1, Foo1. }
  rewrite Eh, Fih3, Foh3, Ein, Eout. split_and!; congruence.
Qed.

Lemma restore_modes_witness :
  exists s2 s3,
    run ([Go 0%nat (ReadOk x41); Setup] ++ [Restore]) demo_state = Some (s2, []) /\
    run [Go 0%nat Lock; Go 1%nat (ReadOk x42); Go 1%nat Lock] s2 = Some (s3, []) /\
    windows.GetConsoleMode (host s3) (inHandle (r s3)) = inr 0x3f7 /\
    windows.GetConsoleMode (host s3) (outHandle (r s3)) = inr 0x3.
Proof.
  destruct (run ([Go 0%nat (ReadOk x41); Setup] ++ [Restore]) demo_state)
    as [[s2 o]|] eqn:H; [|vm_compute in H; discriminate H].
  assert (o = []) as ->.
  { vm_compute in H. by inversion H. }
  destruct (run [Go 0%nat Lock; Go 1%nat (ReadOk x42); Go 1%nat Lock] s2)
    as [[s3 o']|] eqn:H'.
  - assert (o' = []) as ->.
    { vm_compute in H. inversion H; subst. vm_compute in H'. by inversion H'. }
    exists s2, s3. split; [reflexivity|]. split; [exact H'|].
    assert (initPlatform (boot demo_host id) = (None, demo_state)) as Hinit
      by (vm_compute; reflexivity).
    assert (inHandle (r demo_state) ≠ outHandle (r demo_state)) as Hne
      by (vm_compute; discriminate).
    assert (restores ([Go 0%nat (ReadOk x41); Setup] ++ [Restore]) < 2 ^ 64)
      as Hb by (vm_compute; reflexivity).
    destruct (restore_modes demo_host id demo_state s2 s3
                [Go 0%nat (ReadOk x41); Setup]
                [Go 0%nat Lock; Go 1%nat (ReadOk x42); Go 1%nat Lock] [] []
                Hinit H eq_refl H' Hb Hne eq_refl eq_refl)
      as (_ & _ & _ & _ & Hin & Hout).
    split; [exact Hin | exact Hout].
  - exfalso. vm_compute in H. inversion H; subst.
    vm_compute in H'. discriminate H'.
Defined.

(** C1, as stated, fails on the input mode: on [demo_host] the input
    console is in mode 0x1f7 when [initPlatform] captures it, and in mode
    0x3f7 after [restoreTerminal]. *)
Lemma restore_input_mode_counterexample :
  exists s0 s2,
    initPlatform (boot demo_host id) = (None, s0) /\
    run [Restore] s0 = Some (s2, []) /\
    origStateInput (r s2) = 0x1f7 /\
    windows.GetConsoleMode (host s2) (inHandle (r s2)) = inr 0x3f7 /\
    windows.GetConsoleMode (host s2) (inHandle (r s2))
      ≠ inr (origStateInput (r s2)).
Proof.
  do 2 eexists. split_and!; [vm_compute; reflexivity..|].
  vm_compute. discriminate.
Qed.

(** ** Reading a key *)

Lemma recv_Some_buffer s bc q :
  buffer s = bc :: q -> exists s', recv s = Some (bc, s') /\ buffer s' = q.
Proof.
  intros Hb. destruct (recv s) as [[bc' s']|] eqn:Hr.
  - destruct (recv_buffer _ _ _ Hr) as (E & _). exists s'.
    rewrite Hb in E. by simplify_eq.
  - apply recv_None_buffer in Hr. congruence.
Qed.

(** C4. A non-blocking [getch] with nothing to receive cannot complete
    before [timeoutInterval] milliseconds have passed since it was entered,
    and from then on completes with (0, false), the state unchanged; with a
    byte at the head of the channel it completes with that byte and true by
    the receive, the only way to complete before the timeout. A blocking
    [getch] cannot complete while there is nothing to receive, completes
    with the byte at the head of the channel and true, and never with false.
    In a run, every completing [getch] returns either the byte taken from
    the head of the channel with true, or (0, false), the latter only in a
    non-blocking call once the timeout has passed. *)
Theorem getch_results (s : State) (entered : Z) :
  (buffer s = [] ->
     getch true entered CaseRecv s = None /\
     (now s < entered + timeoutInterval ->
        getch true entered CaseAfter s = None) /\
     (entered + timeoutInterval <= now s ->
        getch true entered CaseAfter s = Some ((0, false), s)))
  /\ (forall bc q, buffer s = bc :: q ->
        (exists s', getch true entered CaseRecv s
                      = Some ((int_of_byte bc, true), s') /\ buffer s' = q) /\
        (now s < entered + timeoutInterval ->
           getch true entered CaseAfter s = None))
  /\ (buffer s = [] -> forall c, getch false entered c s = None)
  /\ (forall bc q, buffer s = bc :: q ->
        exists s', getch false entered CaseRecv s
                     = Some ((int_of_byte bc, true), s') /\ buffer s' = q)
  /\ (forall c v ok s', getch false entered c s = Some ((v, ok), s') ->
        ok = true)
  /\ (forall nonblock c s' o,
        getter s = Some (nonblock, entered) ->
        step (GetchReturn c) s = Some (s', o) ->
        exists v ok, o = [Returned v ok] /\ getter s' = None /\
          ((ok = true /\ exists bc, buffer s = bc :: buffer s' /\
                                    v = int_of_byte bc)
           \/ (ok = false /\ v = 0 /\ nonblock = true /\
               entered + timeoutInterval <= now s /\
               buffer s' = buffer s))).
Proof.
  assert (forall t, now s < t -> (t <=? now s) = false) as Hltb
    by (intros; by apply Z.leb_gt).
  assert (forall t, t <= now s -> (t <=? now s) = true) as Hleb
    by (intros; by apply Z.leb_le).
  split_and!.
  - intros Hb. apply recv_None_buffer in Hb. unfold getch. rewrite Hb.
    split_and!; [done| |]; intros Ht.
    + by rewrite Hltb.
    + by rewrite Hleb.
  - intros bc q Hb. destruct (recv_Some_buffer _ _ _ Hb) as (s' & Hr & Hq).
    unfold getch. rewrite Hr. simpl. split; [eauto|].
    intros Ht. by rewrite Hltb.
  - intros Hb c. apply recv_None_buffer in Hb. unfold getch. rewrite Hb.
    by destruct c.
  - intros bc q Hb. destruct (recv_Some_buffer _ _ _ Hb) as (s' & Hr & Hq).
    unfold getch. rewrite Hr. simpl. eauto.
  - intros c v ok s' H.
    apply getch_cases in H as [(_ & _ & _ & -> & _)|(_ & _ & _ & ? & _)]; done.
  - intros nonblock c s' o Hg H. simpl in H. rewrite Hg in H. simpl in H.
    destruct (getch nonblock entered c s) as [[[v ok] s1]|] eqn:Hc;
      simplify_eq/=.
    exists v, ok. split_and!; try done.
    apply getch_cases in Hc as [(bc & Hr & -> & -> & _)|(-> & -> & -> & -> & _ & Ht)].
    + left. split; [done|]. exists bc. split; [|done].
      by apply recv_buffer in Hr as (-> & _).
    + right. done.
Qed.

Lemma getch_results_witness :
  buffer waited_state = [] /\
  getch true 0 CaseRecv waited_state = None /\
  getch true 0 CaseAfter waited_state = Some ((0, false), waited_state).
Proof.
  assert (buffer waited_state = []) as Hb by reflexivity.
  destruct (proj1 (getch_results waited_state 0) Hb) as (H1 & _ & H2).
  split; [exact Hb|]. split; [exact H1|].
  apply H2. vm_compute. discriminate.
Defined.

(** * Further properties *)

(** ** The capability probe, in full *)


(** X2. [DefaultTheme] returns [Dark256] exactly when the probe answers
    true, [ConEmuPID] is empty or not set, and [TCELL_TRUECOLOR] is not
    [disable]; in every other case it returns [Default16]. *)
Theorem DefaultTheme_table (w : Host) :
  ((DefaultTheme w).1 = Dark256 <->
     (IsLightRendererSupported w).1 = true /\
     os.Getenv w "ConEmuPID" = EmptyString /\
     os.Getenv w "TCELL_TRUECOLOR" ≠ "disable"%string)
  /\ ((DefaultTheme w).1 = Default16 \/ (DefaultTheme w).1 = Dark256).
Proof.
  unfold DefaultTheme.
  pose proof (probe_environ w) as E.
  destruct (IsLightRendererSupported w) as [supported w1]. simpl in E.
  unfold os.Getenv. rewrite E. simpl.
  destruct supported; simpl.
  - destruct (decide (default EmptyString (environ w !! "ConEmuPID"%string)
                      = EmptyString)) as [H1|H1];
    destruct (decide (default EmptyString (environ w !! "TCELL_TRUECOLOR"%string)
                      = "disable"%string)) as [H2|H2].
    all: rewrite ?(bool_decide_eq_true_2 _ H1), ?(bool_decide_eq_false_2 _ H1),
           ?(bool_decide_eq_true_2 _ H2), ?(bool_decide_eq_false_2 _ H2);
      simpl; split; auto; split; try done; intros (_ & ? & ?); done.
  - split; [|auto]. split; [done|]. by intros (? & _).
Qed.

(** ** Start-up that fails *)

(** X3. When [initPlatform] returns an error it has changed neither the
    console, nor the counter, nor the channels, and has started no
    goroutine: only [origStateOutput] and [outHandle] may have been set. *)
Theorem initPlatform_failure (s : State) :
  (initPlatform s).1 ≠ None ->
  let s' := (initPlatform s).2 in
  host s' = host s /\ counter s' = counter s /\ chans s' = chans s /\
  goroutines s' = goroutines s /\
  ttyinChannel (r s') = ttyinChannel (r s) /\
  mutex (r s') = mutex (r s) /\
  origStateInput (r s') = origStateInput (r s) /\
  inHandle (r s') = inHandle (r s).
Proof.
  unfold initPlatform.
  destruct (syscall.Open (host s) "CONOUT$") as [oh e1]. simpl.
  destruct (windows.GetConsoleMode (host s) oh) as [err|mo]; [done|].
  destruct (syscall.Open (host s) "CONIN$") as [ih e2]. simpl.
  destruct (windows.GetConsoleMode (host s) ih) as [err|mi]; done.
Qed.

Lemma initPlatform_failure_witness :
  host (initPlatform (boot legacy_host id)).2 = legacy_host /\
  goroutines (initPlatform (boot legacy_host id)).2 = [].
Proof.
  assert ((initPlatform (boot legacy_host id)).1 ≠ None) as H
    by (vm_compute; discriminate).
  destruct (initPlatform_failure _ H) as (Hh & _ & _ & Hg & _).
  split; [exact Hh | exact Hg].
Defined.

(** ** The console modes the calls leave *)

Lemma host_eq w w' : host_frame w w' -> modes w' = modes w -> w' = w.
Proof.
  intros [Ha Hf Hs Hc He _] Hm. destruct w, w'. simpl in *. congruence.
Qed.

(** Reading the mode after setting it. *)
Lemma SetConsoleMode_get w h m k :
  windows.GetConsoleMode (windows.SetConsoleMode w h m).2 k =
  if decide (k = h)
  then match windows.GetConsoleMode w h with
       | inr m0 => inr (if accepts w h m then m else m0)
       | inl e => inl e
       end
  else windows.GetConsoleMode w k.
Proof.
  unfold windows.GetConsoleMode. rewrite SetConsoleMode_modes.
  case_decide; [|done]. by destruct (modes w !! h).
Qed.

Lemma GetConsoleMode_inr w h m :
  windows.GetConsoleMode w h = inr m -> modes w !! h = Some m.
Proof.
  unfold windows.GetConsoleMode. destruct (modes w !! h); congruence.
Qed.



(** X5. [closePlatform] puts both consoles back into the modes they were in
    when [initPlatform] began, the input mode too (it drops the
    [ENABLE_VIRTUAL_TERMINAL_INPUT] that [restoreTerminal] keeps), whatever
    ran in between. It touches nothing else: the counter, the mutex, the
    channel and the goroutines are as before, so it stops no goroutine. The
    two handles are taken to differ and the console driver to accept the
    modes the consoles were in. *)
Theorem closePlatform_modes
  (s s0 s1 : State) (es : list event) (o : list obs) :
  initPlatform s = (None, s0) ->
  run es s0 = Some (s1, o) ->
  inHandle (r s0) ≠ outHandle (r s0) ->
  settled (host s) (inHandle (r s0)) ->
  settled (host s) (outHandle (r s0)) ->
  windows.GetConsoleMode (host (closePlatform s1)) (inHandle (r s1))
    = windows.GetConsoleMode (host s) (inHandle (r s1)) /\
  windows.GetConsoleMode (host (closePlatform s1)) (outHandle (r s1))
    = windows.GetConsoleMode (host s) (outHandle (r s1)) /\
  r (closePlatform s1) = r s1 /\
  counter (closePlatform s1) = counter s1 /\
  chans (closePlatform s1) = chans s1 /\
  goroutines (closePlatform s1) = goroutines s1.
Proof.
  intros Hinit Hrun Hne Hsi Hso.
  destruct (initPlatform_ok _ _ Hinit) as (Hi & Ho & Hf0 & _).
  pose proof (run_frame _ _ _ _ Hrun) as [Fh1 Foi1 Foo1 Fih1 Foh1 _ _ _].
  split_and!; try reflexivity.
  all: unfold closePlatform; cbn [host set_host SetConsoleMode_ r].
  all: rewrite !SetConsoleMode_get, SetConsoleMode_accepts.
  all: rewrite Fih1, Foh1, Foi1, Foo1.
  all: repeat case_decide; try congruence.
  all: rewrite (hf_accepts _ _ Fh1), (hf_accepts _ _ Hf0).
  - rewrite Hi. apply GetConsoleMode_inr in Hi.
    rewrite (Hsi _ Hi).
    destruct (hf_consoles _ _ Fh1 (inHandle (r s0))) as [_ Hc1].
    destruct (hf_consoles _ _ Hf0 (inHandle (r s0))) as [_ Hc0].
    destruct Hc1 as [m1 Hm1]; [apply Hc0; by rewrite Hi|].
    unfold windows.GetConsoleMode. by rewrite Hm1.
  - rewrite Ho. apply GetConsoleMode_inr in Ho.
    rewrite (Hso _ Ho).
    destruct (hf_consoles _ _ Fh1 (outHandle (r s0))) as [_ Hc1].
    destruct (hf_consoles _ _ Hf0 (outHandle (r s0))) as [_ Hc0].
    destruct Hc1 as [m1 Hm1]; [apply Hc0; by rewrite Ho|].
    unfold windows.GetConsoleMode. by rewrite Hm1.
Qed.

Lemma closePlatform_modes_witness :
  exists s1,
    run (feed 0 x41 ++ [Restore]) demo_state = Some (s1, [Pushed 0 x41]) /\
    windows.GetConsoleMode (host s1) (inHandle (r s1)) = inr 0x3f7 /\
    windows.GetConsoleMode (host (closePlatform s1)) (inHandle (r s1))
      = inr 0x1f7 /\
    windows.GetConsoleMode (host (closePlatform s1)) (outHandle (r s1))
      = inr 0x3.
Proof.
  destruct (run (feed 0 x41 ++ [Restore]) demo_state) as [[s1 o]|] eqn:H;
    [|vm_compute in H; discriminate H].
  assert (o = [Pushed 0%nat x41]) as -> by (vm_compute in H; by inversion H).
  exists s1. split; [reflexivity|].
  assert (initPlatform (boot demo_host id) = (None, demo_state)) as Hinit
    by (vm_compute; reflexivity).
  assert (inHandle (r demo_state) ≠ outHandle (r demo_state)) as Hne
    by (vm_compute; discriminate).
  assert (settled (host (boot demo_host id)) (inHandle (r demo_state))) as Hsi.
  { intros m Hm. vm_compute in Hm. inversion Hm. reflexivity. }
  assert (settled (host (boot demo_host id)) (outHandle (r demo_state))) as Hso.
  { intros m Hm. vm_compute in Hm. inversion Hm. reflexivity. }
  destruct (closePlatform_modes _ _ _ _ _ Hinit H Hne Hsi Hso)
    as (Hin & Hout & _).
  assert (inHandle (r s1) = 12 /\ outHandle (r s1) = 11) as [Ei Eo].
  { vm_compute in H. inversion H. split; reflexivity. }
  split; [|split].
  - vm_compute in H. inversion H. vm_compute. reflexivity.
  - rewrite Hin, Ei. reflexivity.
  - rewrite Hout, Eo. reflexivity.
Defined.

(** X6. [restoreTerminal] is idempotent on the terminal: it leaves the
    mutex free, so a second call right after the first goes through, and the
    second call changes nothing but the counter, which it advances once
    more. *)
Theorem restoreTerminal_twice (s s1 : State) :
  restoreTerminal s = Some s1 ->
  exists s2,
    restoreTerminal s1 = Some s2 /\
    host s2 = host s1 /\ r s2 = r s1 /\ chans s2 = chans s1 /\
    goroutines s2 = goroutines s1 /\
    counter s2 = incr64 (counter s1).
Proof.
  unfold restoreTerminal. destruct (mutex (r s)) eqn:Hm; [done|].
  intros H. inversion H; subst; clear H. cbn [r set_r set_mutex mutex].
  eexists. split; [reflexivity|]. split_and!; try reflexivity.
  cbn [host set_host set_r set_counter SetConsoleMode_ r
       inHandle outHandle origStateInput origStateOutput set_mutex].
  set (a := Z.lor (origStateInput (r s)) windows.ENABLE_VIRTUAL_TERMINAL_INPUT).
  set (ih := inHandle (r s)). set (oh := outHandle (r s)).
  set (c := origStateOutput (r s)).
  apply host_eq.
  - eapply host_frame_trans; apply SetConsoleMode_frame.
  - apply map_eq. intros k.
    rewrite !SetConsoleMode_modes, !SetConsoleMode_accepts.
    repeat case_decide; try congruence;
      repeat match goal with
             | |- context [modes (host s) !! ?h] =>
                 destruct (modes (host s) !! h); simpl
             | |- context [accepts (host s) ?h ?m] =>
                 destruct (accepts (host s) h m); simpl
             end; done.
Qed.

Lemma restoreTerminal_twice_witness :
  exists s1 s2,
    restoreTerminal demo_state = Some s1 /\
    restoreTerminal s1 = Some s2 /\ host s2 = host s1 /\ counter s2 = 2.
Proof.
  destruct (restoreTerminal demo_state) as [s1|] eqn:H;
    [|vm_compute in H; discriminate H].
  destruct (restoreTerminal_twice _ _ H) as (s2 & H2 & Hh & _ & _ & _ & Hc).
  exists s1, s2. split; [reflexivity|]. split; [exact H2|].
  split; [exact Hh|]. rewrite Hc.
  vm_compute in H. inversion H. reflexivity.
Defined.

(** ** The channel's capacity *)

(** X7. The channel never holds more than its 1024 bytes: a send goes
    through only while fewer are buffered, and over any run a channel within
    its capacity stays within it. *)
Theorem buffer_bounded (es : list event) (s s' : State) (o : list obs) :
  (length (buffer s) <= chan_cap)%nat ->
  run es s = Some (s', o) ->
  (length (buffer s') <= chan_cap)%nat.
Proof.
  revert s o. induction es as [|e es IH]; intros s o Hb H.
  { simpl in H. by simplify_eq. }
  apply run_cons in H as (s1 & o1 & o2 & Hs & Hr & ->).
  eapply IH; [|exact Hr]. clear IH Hr.
  destruct e as [| |nb|c| |i a]; simpl in Hs.
  - by simplify_eq.
  - destruct (restoreTerminal s) as [s2|] eqn:Hrt; simplify_eq/=.
    by rewrite (buffer_restoreTerminal _ _ Hrt).
  - destruct (getter s); by simplify_eq/=.
  - destruct (getter s) as [[nb entered]|]; simplify_eq/=.
    destruct (getch nb entered c s) as [[[v ok] s2]|] eqn:Hg; simplify_eq/=.
    apply getch_cases in Hg as [(bc & Hrecv & _)|(-> & _)]; [|done].
    apply recv_buffer in Hrecv as (E & _).
    change (buffer (set_getter None s2)) with (buffer s2).
    rewrite E in Hb. simpl in Hb. lia.
  - by simplify_eq.
  - destruct (goroutines s !! i) as [rd|] eqn:Hi; simplify_eq/=.
    destruct (reader_step i a rd s) as [[[rd' s2] o3]|] eqn:Hrs; simplify_eq/=.
    rewrite buffer_set_goroutines.
    apply reader_step_cases in Hrs as (_ & Hrs).
    destruct Hrs as [(_ & _ & -> & _)|[(_ & _ & -> & _)|[(_ & _ & _ & _ & -> & _)
      |[(_ & _ & _ & _ & -> & _)|[(_ & _ & Hsend & _)|(_ & _ & -> & _)]]]]];
      try done.
    apply send_buffer in Hsend as (E & _ & Hlt & _).
    rewrite E, length_app. simpl. lia.
Qed.

Lemma buffer_bounded_witness :
  exists s' o, run arrow_scenario demo_state = Some (s', o) /\
               (length (buffer s') <= chan_cap)%nat.
Proof.
  destruct (run arrow_scenario demo_state) as [[s' o]|] eqn:H;
    [|vm_compute in H; discriminate H].
  exists s', o. split; [reflexivity|].
  apply (buffer_bounded arrow_scenario demo_state s' o); [|exact H].
  vm_compute. lia.
Defined.

(** ** Counting calls *)

(** What one event does to the counter and to the number of goroutines. *)
Lemma step_counts e s s' o :
  step e s = Some (s', o) ->
  counter s' = match e with
               | Restore => incr64 (counter s)
               | _ => counter s
               end /\
  length (goroutines s') = (length (goroutines s) + setups [e])%nat.
Proof.
  intros H. destruct e as [| |nb|c| |i a]; simpl in H.
  - simplify_eq/=. rewrite length_app. simpl. split; [done|lia].
  - unfold restoreTerminal in H. destruct (mutex (r s)); simplify_eq/=.
    split; [done|lia].
  - destruct (getter s); simplify_eq/=. split; [done|lia].
  - destruct (getter s) as [[nb entered]|]; simplify_eq/=.
    destruct (getch nb entered c s) as [[[v ok] s2]|] eqn:Hg; simplify_eq/=.
    apply getch_cases in Hg as [(bc & Hrecv & _)|(-> & _)]; [|split; [done|lia]].
    apply recv_buffer in Hrecv as (_ & -> & _). simpl. split; [done|lia].
  - simplify_eq/=. split; [done|lia].
  - destruct (goroutines s !! i) as [rd|] eqn:Hi; simplify_eq/=.
    destruct (reader_step i a rd s) as [[[rd' s2] o3]|] eqn:Hrs; simplify_eq/=.
    rewrite length_insert.
    apply reader_step_cases in Hrs as (_ & Hrs).
    destruct Hrs as [(_ & _ & -> & _)|[(_ & _ & -> & _)|[(_ & _ & _ & _ & -> & _)
      |[(_ & _ & _ & _ & -> & _)|[(_ & _ & Hsend & _)|(_ & _ & -> & _)]]]]];
      try (split; [done|simpl; lia]).
    apply send_buffer in Hsend as (_ & -> & _). split; [done|simpl; lia].
Qed.

(** X8. The counter counts the calls of [restoreTerminal], modulo 2^64:
    nothing else changes it (not [setupTerminal], not a goroutine), and each
    call advances it by one. *)
Theorem counter_counts_restores (es : list event) (s s' : State) (o : list obs) :
  0 <= counter s < 2 ^ 64 ->
  run es s = Some (s', o) ->
  counter s' = (counter s + restores es) mod 2 ^ 64.
Proof.
  revert s o. induction es as [|e es IH]; intros s o Hc H.
  { simpl in H. simplify_eq/=. rewrite Z.add_0_r. by rewrite Z.mod_small. }
  apply run_cons in H as (s1 & o1 & o2 & Hs & Hr & ->).
  destruct (step_counts _ _ _ _ Hs) as [E _].
  assert (0 <= counter s1 < 2 ^ 64) as Hc1.
  { rewrite E. destruct e; try done. unfold incr64.
    apply Z.mod_pos_bound. lia. }
  rewrite (IH _ _ Hc1 Hr), E. clear IH Hr Hs E Hc1.
  destruct e; simpl; try done.
  unfold incr64. rewrite Zplus_mod_idemp_l. f_equal. lia.
Qed.

Lemma counter_counts_restores_witness :
  exists s', run [Restore; Setup; Restore] demo_state = Some (s', []) /\
             counter s' = 2.
Proof.
  destruct (run [Restore; Setup; Restore] demo_state) as [[s' o]|] eqn:H;
    [|vm_compute in H; discriminate H].
  assert (o = []) as -> by (vm_compute in H; by inversion H).
  exists s'. split; [reflexivity|].
  rewrite (counter_counts_restores _ demo_state s' [] ltac:(vm_compute; split; [discriminate|reflexivity]) H).
  reflexivity.
Defined.

(** X9. Every call of [setupTerminal] starts one goroutine and nothing ever
    removes one, [restoreTerminal] included: after a run there are as many
    goroutines more as [setupTerminal] was called. *)
Theorem goroutines_count (es : list event) (s s' : State) (o : list obs) :
  run es s = Some (s', o) ->
  length (goroutines s') = (length (goroutines s) + setups es)%nat.
Proof.
  revert s o. induction es as [|e es IH]; intros s o H.
  { simpl in H. simplify_eq/=. lia. }
  apply run_cons in H as (s1 & o1 & o2 & Hs & Hr & ->).
  destruct (step_counts _ _ _ _ Hs) as [_ E].
  rewrite (IH _ _ Hr), E. destruct e; simpl; lia.
Qed.

Lemma goroutines_count_witness :
  exists s', run [Restore; Setup; Restore; Setup] demo_state = Some (s', []) /\
             length (goroutines s') = 3%nat.
Proof.
  destruct (run [Restore; Setup; Restore; Setup] demo_state)
    as [[s' o]|] eqn:H; [|vm_compute in H; discriminate H].
  assert (o = []) as -> by (vm_compute in H; by inversion H).
  exists s'. split; [reflexivity|].
  rewrite (goroutines_count _ _ _ _ H). reflexivity.
Defined.

(** ** Goroutines that have left their loop *)

(** X10. A goroutine that has left its loop stays out: over any run it is
    unchanged, takes no step and sends nothing, whatever the counter does
    afterwards. *)
Theorem exited_stays_exited
  (es : list event) (s s' : State) (o : list obs) (i : nat) (rd : Reader) :
  goroutines s !! i = Some rd -> at_pc rd = Exited ->
  run es s = Some (s', o) ->
  goroutines s' !! i = Some rd /\
  (forall x, Pushed i x ∉ o) /\
  (forall a, Go i a ∉ es).
Proof.
  revert s o. induction es as [|e es IH]; intros s o Hi Hpc H.
  { simpl in H. simplify_eq/=.
    split_and!; [done|intros x; apply not_elem_of_nil
                |intros a; apply not_elem_of_nil]. }
  apply run_cons in H as (s1 & o1 & o2 & Hs & Hr & ->).
  assert (goroutines s1 !! i = Some rd /\ (forall x, Pushed i x ∉ o1)
          /\ (forall a, e ≠ Go i a)) as (Hi1 & Ho1 & He).
  { split_and!.
    - destruct e as [| |nb|c| |j a]; simpl in Hs.
      + simplify_eq/=. by apply lookup_app_l_Some.
      + unfold restoreTerminal in Hs. destruct (mutex (r s)); by simplify_eq/=.
      + destruct (getter s); by simplify_eq/=.
      + destruct (getter s) as [[nb entered]|]; simplify_eq/=.
        destruct (getch nb entered c s) as [[[v ok] s2]|] eqn:Hg; simplify_eq/=.
        apply getch_cases in Hg as [(bc & Hrecv & _)|(-> & _)]; [|done].
        by apply recv_buffer in Hrecv as (_ & -> & _).
      + by simplify_eq/=.
      + destruct (goroutines s !! j) as [rdj|] eqn:Hj; simplify_eq/=.
        destruct (reader_step j a rdj s) as [[[rd' s2] o3]|] eqn:Hrs;
          simplify_eq/=.
        destruct (decide (j = i)) as [->|Hne].
        * assert (rdj = rd) as -> by congruence.
          unfold reader_step in Hrs. rewrite Hpc in Hrs. done.
        * rewrite list_lookup_insert_ne by done.
          apply reader_step_cases in Hrs as (_ & Hrs).
          destruct Hrs as [(_ & _ & -> & _)|[(_ & _ & -> & _)
            |[(_ & _ & _ & _ & -> & _)|[(_ & _ & _ & _ & -> & _)
            |[(_ & _ & Hsend & _)|(_ & _ & -> & _)]]]]]; try done.
          by apply send_buffer in Hsend as (_ & -> & _).
    - intros x Hin.
      destruct (step_pushed _ _ _ _ _ _ Hs Hin) as (rd0 & Hi0 & Hpc0 & _).
      congruence.
    - intros a ->. simpl in Hs. rewrite Hi in Hs. simpl in Hs.
      unfold reader_step in Hs. rewrite Hpc in Hs. done. }
  destruct (IH _ _ Hi1 Hpc Hr) as (Hi' & Ho2 & Hes).
  split_and!; [done| |].
  - intros x [Hin|Hin]%elem_of_app; [by eapply Ho1|by eapply Ho2].
  - intros a [Hin|Hin]%elem_of_cons; [by eapply He|by eapply Hes].
Qed.

Lemma exited_stays_exited_witness :
  exists s1 s2 rd,
    run (feed 0 x1b ++ [Restore; Go 0%nat (ReadOk x41); Go 0%nat Lock]) demo_state
      = Some (s1, [Pushed 0 x1b]) /\
    goroutines s1 !! 0%nat = Some rd /\ at_pc rd = Exited /\
    run (Setup :: feed 1 x42) s1 = Some (s2, [Pushed 1 x42]) /\
    goroutines s2 !! 0%nat = Some rd.
Proof.
  destruct (run (feed 0 x1b ++ [Restore; Go 0%nat (ReadOk x41); Go 0%nat Lock])
              demo_state) as [[s1 o1]|] eqn:H1;
    [|vm_compute in H1; discriminate H1].
  assert (o1 = [Pushed 0%nat x1b]) as -> by (vm_compute in H1; by inversion H1).
  destruct (goroutines s1 !! 0%nat) as [rd|] eqn:Hrd.
  2:{ exfalso. vm_compute in H1. inversion H1; subst. vm_compute in Hrd.
      discriminate Hrd. }
  assert (at_pc rd = Exited) as Hpc.
  { vm_compute in H1. inversion H1; subst. vm_compute in Hrd.
    inversion Hrd. reflexivity. }
  destruct (run (Setup :: feed 1 x42) s1) as [[s2 o2]|] eqn:H2.
  2:{ exfalso. vm_compute in H1. inversion H1; subst. vm_compute in H2.
      discriminate H2. }
  assert (o2 = [Pushed 1%nat x42]) as ->.
  { vm_compute in H1. inversion H1; subst. vm_compute in H2. by inversion H2. }
  exists s1, s2, rd. split; [reflexivity|]. split; [exact Hrd|].
  split; [exact Hpc|]. split; [exact H2|].
  exact (proj1 (exited_stays_exited _ _ _ _ _ _ Hrd Hpc H2)).
Defined.

(** ** Mutual exclusion *)

Lemma mutex_update s s' i rd rd' :
  mutex_inv s ->
  goroutines s !! i = Some rd ->
  counter s' = counter s ->
  goroutines s' = <[i := rd']> (goroutines s) ->
  current rd' = current rd ->
  ( (holds_mutex rd = false /\ holds_mutex rd' = false /\
     mutex (r s') = mutex (r s))
  \/ (holds_mutex rd = false /\ holds_mutex rd' = true /\
      mutex (r s) = false /\ mutex (r s') = true /\
      current rd = counter s)
  \/ (holds_mutex rd = true /\ holds_mutex rd' = true /\
      mutex (r s') = mutex (r s))
  \/ (holds_mutex rd = true /\ holds_mutex rd' = false /\
      mutex (r s') = false) ) ->
  mutex_inv s'.
Proof.
  intros [Hh Hu Hl] Hi Ec Eg Ecur Hcase.
  assert (forall j rdj, j ≠ i -> goroutines s' !! j = Some rdj ->
            goroutines s !! j = Some rdj) as Hother.
  { intros j rdj Hne. rewrite Eg. by rewrite list_lookup_insert_ne. }
  assert (forall j rdj, j ≠ i -> goroutines s !! j = Some rdj ->
            goroutines s' !! j = Some rdj) as Hother'.
  { intros j rdj Hne. rewrite Eg. by rewrite list_lookup_insert_ne. }
  assert (goroutines s' !! i = Some rd') as Hi'.
  { rewrite Eg. apply list_lookup_insert_eq. by eapply lookup_lt_Some. }
  assert (forall j rdj, j ≠ i -> goroutines s !! j = Some rdj ->
            holds_mutex rdj = true ->
            holds_mutex rd = false /\ mutex (r s) = true) as Hexcl.
  { intros j rdj Hne Hj Hhj. split; [|by eapply Hh].
    destruct (holds_mutex rd) eqn:Hhrd; [|done].
    exfalso. apply Hne. by eapply Hu. }
  split.
  - intros j rdj Hj Hhj. rewrite Ec. destruct (decide (j = i)) as [->|Hne].
    + assert (rdj = rd') as -> by congruence. rewrite Ecur.
      destruct Hcase as [(_ & ? & _)|[(_ & _ & _ & ? & ?)|[(Hrd & _ & Em)
        |(_ & ? & _)]]]; try congruence; [done|].
      rewrite Em. by eapply Hh.
    + pose proof (Hother _ _ Hne Hj) as Hj0.
      destruct (Hexcl _ _ Hne Hj0 Hhj) as [Hrd Hm].
      split; [|by eapply Hh].
      destruct Hcase as [(_ & _ & Em)|[(_ & _ & ? & _)|[(? & _)|(? & _)]]];
        congruence.
  - intros j k rdj rdk Hj Hk Hhj Hhk.
    destruct (decide (j = i)) as [->|Hnej], (decide (k = i)) as [->|Hnek];
      try done.
    + exfalso. assert (rdj = rd') as -> by congruence.
      pose proof (Hother _ _ Hnek Hk) as Hk0.
      destruct (Hexcl _ _ Hnek Hk0 Hhk) as [Hrd Hm].
      destruct Hcase as [(_ & ? & _)|[(_ & _ & ? & _)|[(? & _)|(? & _)]]];
        congruence.
    + exfalso. assert (rdk = rd') as -> by congruence.
      pose proof (Hother _ _ Hnej Hj) as Hj0.
      destruct (Hexcl _ _ Hnej Hj0 Hhj) as [Hrd Hm].
      destruct Hcase as [(_ & ? & _)|[(_ & _ & ? & _)|[(? & _)|(? & _)]]];
        congruence.
    + eapply Hu; eauto.
  - intros Hm'.
    destruct Hcase as [(Hrd & _ & Em)|[(_ & Hrd' & _)|[(_ & Hrd' & _)
      |(_ & _ & ?)]]]; [|by eauto|by eauto|congruence].
    destruct Hl as (j & rdj & Hj & Hhj); [congruence|].
    exists j, rdj. split; [|done]. apply Hother'; [|done].
    intros ->. congruence.
Qed.

Lemma mutex_same s s' :
  mutex_inv s ->
  counter s' = counter s -> goroutines s' = goroutines s ->
  mutex (r s') = mutex (r s) ->
  mutex_inv s'.
Proof.
  intros [Hh Hu Hl] Ec Eg Em. split; rewrite ?Ec, ?Eg, ?Em; done.
Qed.

Lemma step_mutex_inv e s s' o :
  mutex_inv s -> step e s = Some (s', o) -> mutex_inv s'.
Proof.
  intros Hinv H.
  destruct e as [| |nb|c| |i a]; simpl in H.
  - simplify_eq/=. destruct Hinv as [Hh Hu Hl].
    set (rd := {| current := counter s; fd := inHandle (r s); b := x00;
                  at_pc := AtRead |}).
    assert (forall j rdj, (goroutines s ++ [rd]) !! j = Some rdj ->
              goroutines s !! j = Some rdj \/ rdj = rd) as Hcases.
    { intros j rdj Hj. apply lookup_app_Some in Hj as [Hj|[_ Hj]]; [by left|].
      right. by apply list_lookup_singleton_Some in Hj as [_ Hj]. }
    split; simpl.
    + intros j rdj Hj Hhj. destruct (Hcases _ _ Hj) as [Hj0| ->]; [eauto|done].
    + intros j k rdj rdk Hj Hk Hhj Hhk.
      destruct (Hcases _ _ Hj) as [Hj0| ->]; [|done].
      destruct (Hcases _ _ Hk) as [Hk0| ->]; [|done]. eauto.
    + intros Hm. destruct (Hl Hm) as (j & rdj & Hj & Hhj).
      exists j, rdj. split; [|done]. by apply lookup_app_l_Some.
  - unfold restoreTerminal in H. destruct (mutex (r s)) eqn:Hm; simplify_eq/=.
    destruct Hinv as [Hh Hu Hl].
    assert (forall j rdj, goroutines s !! j = Some rdj ->
              holds_mutex rdj = false) as Hfree.
    { intros j rdj Hj. destruct (holds_mutex rdj) eqn:Hhj; [|done].
      destruct (Hh _ _ Hj Hhj). congruence. }
    split; simpl.
    + intros j rdj Hj Hhj. rewrite (Hfree _ _ Hj) in Hhj. done.
    + intros j k rdj rdk Hj Hk Hhj. rewrite (Hfree _ _ Hj) in Hhj. done.
    + done.
  - destruct (getter s); simplify_eq/=. by eapply mutex_same.
  - destruct (getter s) as [[nb entered]|]; simplify_eq/=.
    destruct (getch nb entered c s) as [[[v ok] s1]|] eqn:Hg; simplify_eq/=.
    apply getch_cases in Hg as [(bc & Hrecv & _)|(-> & _)].
    + apply recv_buffer in Hrecv as (_ & -> & _). by eapply mutex_same.
    + by eapply mutex_same.
  - simplify_eq/=. by eapply mutex_same.
  - destruct (goroutines s !! i) as [rd|] eqn:Hi; simplify_eq/=.
    destruct (reader_step i a rd s) as [[[rd' s1] o1]|] eqn:Hs; simplify_eq/=.
    apply reader_step_cases in Hs as (Hc & Hs).
    destruct Hs as [(Hpc & Hpc' & -> & _)|[(Hpc & -> & -> & _)
      |[(Hpc & Hm & Hne & Hpc' & -> & _)|[(Hpc & Hm & Heq & Hpc' & -> & _)
      |[(Hpc & Hpc' & Hsend & _)|(Hpc & Hpc' & -> & _)]]]]].
    + eapply mutex_update; eauto. left.
      unfold holds_mutex. by rewrite Hpc, Hpc'.
    + eapply mutex_update; eauto. left.
      unfold holds_mutex. by rewrite Hpc.
    + eapply mutex_update; eauto. left.
      unfold holds_mutex. by rewrite Hpc, Hpc'.
    + eapply mutex_update; eauto. right. left.
      unfold holds_mutex. by rewrite Hpc, Hpc'.
    + apply send_buffer in Hsend as (_ & -> & _).
      eapply mutex_update; eauto. right. right. left.
      unfold holds_mutex. by rewrite Hpc, Hpc'.
    + eapply mutex_update; eauto. right. right. right.
      unfold holds_mutex. by rewrite Hpc, Hpc'.
Qed.

Lemma run_mutex_inv es s s' o :
  mutex_inv s -> run es s = Some (s', o) -> mutex_inv s'.
Proof.
  revert s o. induction es as [|e es IH]; intros s o Hinv H.
  - simpl in H. by simplify_eq.
  - apply run_cons in H as (s1 & o1 & o2 & Hs & Hr & ->).
    eauto using step_mutex_inv.
Qed.

(** X11. The mutex gives mutual exclusion, in every state a run reaches
    from a successful [initPlatform] at process start: at most one goroutine
    is between its generation check and its unlock, that goroutine captured
    the present generation, and [restoreTerminal] has to wait exactly while
    there is such a goroutine. *)
Theorem mutual_exclusion
  (w : Host) (mh : Z -> Z) (s0 s : State) (es : list event) (o : list obs) :
  initPlatform (boot w mh) = (None, s0) ->
  run es s0 = Some (s, o) ->
  (forall i j rdi rdj,
     goroutines s !! i = Some rdi -> goroutines s !! j = Some rdj ->
     holds_mutex rdi = true -> holds_mutex rdj = true -> i = j) /\
  (forall i rd, goroutines s !! i = Some rd -> holds_mutex rd = true ->
     current rd = counter s) /\
  (restoreTerminal s = None <->
   exists i rd, goroutines s !! i = Some rd /\ holds_mutex rd = true).
Proof.
  intros Hinit Hrun.
  assert (mutex_inv s0) as Hinv0.
  { destruct (initPlatform_ok _ _ Hinit) as (_ & _ & _ & _ & _ & Hg & _ & Hm).
    simpl in Hg, Hm. split.
    - intros i rd Hi. rewrite Hg in Hi.
      apply list_lookup_singleton_Some in Hi as [_ <-]. done.
    - intros i j rdi rdj Hi. rewrite Hg in Hi.
      apply list_lookup_singleton_Some in Hi as [_ <-]. done.
    - congruence. }
  destruct (run_mutex_inv _ _ _ _ Hinv0 Hrun) as [Hh Hu Hl].
  split_and!; [done|intros i rd Hi Hhi; by eapply Hh|].
  unfold restoreTerminal. destruct (mutex (r s)) eqn:Hm.
  - split; [auto|done].
  - split; [done|]. intros (i & rd & Hi & Hhi).
    destruct (Hh _ _ Hi Hhi). congruence.
Qed.

Lemma mutual_exclusion_witness :
  exists s,
    run [Go 0%nat (ReadOk x41); Go 0%nat Lock] demo_state = Some (s, []) /\
    restoreTerminal s = None.
Proof.
  destruct (run [Go 0%nat (ReadOk x41); Go 0%nat Lock] demo_state)
    as [[s o]|] eqn:H; [|vm_compute in H; discriminate H].
  assert (o = []) as -> by (vm_compute in H; by inversion H).
  exists s. split; [reflexivity|].
  assert (initPlatform (boot demo_host id) = (None, demo_state)) as Hinit
    by (vm_compute; reflexivity).
  destruct (mutual_exclusion _ _ _ _ _ _ Hinit H) as (_ & _ & Hr).
  apply Hr. exists 0%nat.
  destruct (goroutines s !! 0%nat) as [rd|] eqn:Hrd.
  - exists rd. split; [reflexivity|].
    vm_compute in H. inversion H; subst. vm_compute in Hrd.
    inversion Hrd. reflexivity.
  - exfalso. vm_compute in H. inversion H; subst. vm_compute in Hrd.
    discriminate Hrd.
Defined.

(** ** From the key to [getch] *)

Lemma step_Go i a rd s rd' s' o :
  goroutines s !! i = Some rd ->
  reader_step i a rd s = Some (rd', s', o) ->
  step (Go i a) s = Some (set_goroutines (<[i := rd']> (goroutines s')) s', o).
Proof. intros Hi Hs. simpl. rewrite Hi. simpl. by rewrite Hs. Qed.

(** One turn of the loop of a goroutine of the present generation. *)
Lemma feed_run s i rd x ch q :
  goroutines s !! i = Some rd -> at_pc rd = AtRead ->
  current rd = counter s -> mutex (r s) = false ->
  ttyinChannel (r s) = Some ch -> chans s !! ch = Some q ->
  (length q < chan_cap)%nat ->
  run (feed i x) s
  = Some (set_goroutines (<[i := set_b x rd]> (goroutines s))
            (set_chans (<[ch := q ++ [x]]> (chans s))
               (SetConsoleMode_ (inHandle (r s)) consoleFlagsInput s)),
          [Pushed i x]).
Proof.
  intros Hi Hpc Hcur Hm Hch Hq Hlen.
  assert (i < length (goroutines s))%nat as Hlt by (by eapply lookup_lt_Some).
  unfold feed, run.
  erewrite step_Go; [|exact Hi|unfold reader_step; rewrite Hpc; reflexivity].
  cbn [mbind option_bind].
  erewrite step_Go; cycle 1.
  { simpl. by apply list_lookup_insert_eq. }
  { unfold reader_step. simpl. rewrite Hm.
    rewrite bool_decide_eq_false_2 by (intros Hne; by apply Hne). reflexivity. }
  cbn [mbind option_bind].
  erewrite step_Go; cycle 1.
  { simpl. apply list_lookup_insert_eq. by rewrite length_insert. }
  { unfold reader_step, send. simpl. rewrite Hch. simpl. rewrite Hq. simpl.
    apply Nat.ltb_lt in Hlen. rewrite Hlen. reflexivity. }
  cbn [mbind option_bind].
  erewrite step_Go; cycle 1.
  { simpl. apply list_lookup_insert_eq. by rewrite !length_insert. }
  { unfold reader_step. simpl. reflexivity. }
  cbn [mbind option_bind]. simpl.
  rewrite !list_insert_insert_eq.
  do 2 f_equal.
  destruct s as [w c rr cs gs t g], rr, rd. simpl in *. subst.
  unfold set_goroutines, set_chans, SetConsoleMode_, set_host, set_r,
    set_mutex, set_pc, set_b. simpl. reflexivity.
Qed.

(** X12. A goroutine of the present generation delivers what it reads: when
    the mutex is free and the channel has room, the goroutine reads a byte,
    takes the mutex, sends the byte (which becomes the newest in the
    channel), sets the input mode to [consoleFlagsInput] again (kept only if
    the console driver accepts it), releases the mutex and is back at the
    top of its loop, still of the present generation. *)
Theorem live_reader_delivers
  (s : State) (i : nat) (rd : Reader) (x : byte) (ch : nat) (q : list byte) :
  goroutines s !! i = Some rd -> at_pc rd = AtRead ->
  current rd = counter s -> mutex (r s) = false ->
  ttyinChannel (r s) = Some ch -> chans s !! ch = Some q ->
  (length q < chan_cap)%nat ->
  exists s',
    run (feed i x) s = Some (s', [Pushed i x]) /\
    buffer s' = buffer s ++ [x] /\
    mutex (r s') = false /\ counter s' = counter s /\
    (exists rd', goroutines s' !! i = Some rd' /\ at_pc rd' = AtRead /\
                 current rd' = counter s') /\
    windows.GetConsoleMode (host s') (inHandle (r s'))
    = match windows.GetConsoleMode (host s) (inHandle (r s)) with
      | inr m0 => inr (if accepts (host s) (inHandle (r s)) consoleFlagsInput
                       then consoleFlagsInput else m0)
      | inl e => inl e
      end.
Proof.
  intros Hi Hpc Hcur Hm Hch Hq Hlen.
  eexists. split; [by eapply feed_run|].
  assert (ch < length (chans s))%nat as Hlt by (by eapply lookup_lt_Some).
  split_and!.
  - unfold buffer. simpl. rewrite Hch. simpl.
    by rewrite list_lookup_insert_eq, Hq.
  - done.
  - done.
  - exists (set_b x rd). simpl. split_and!; [|done|done].
    apply list_lookup_insert_eq. by eapply lookup_lt_Some.
  - simpl. rewrite SetConsoleMode_get. by rewrite decide_True.
Qed.

Lemma live_reader_delivers_witness :
  exists s', run (feed 0 x41) demo_state = Some (s', [Pushed 0 x41]) /\
             buffer s' = [x41].
Proof.
  destruct (live_reader_delivers demo_state 0
              {| current := 0; fd := 12; b := x00; at_pc := AtRead |}
              x41 0 [] eq_refl eq_refl eq_refl eq_refl eq_refl eq_refl)
    as (s' & Hrun & Hb & _).
  { vm_compute. lia. }
  exists s'. split; [exact Hrun | exact Hb].
Defined.

(** X13. From the key to the caller: with an empty channel and no [getch]
    in progress, once a goroutine of the present generation has read a byte
    and sent it, the next [getch], blocking or not, returns that byte with
    true, and the channel is empty again. *)
Theorem key_reaches_getch
  (s : State) (i : nat) (rd : Reader) (x : byte) (ch : nat) (nonblock : bool) :
  goroutines s !! i = Some rd -> at_pc rd = AtRead ->
  current rd = counter s -> mutex (r s) = false ->
  ttyinChannel (r s) = Some ch -> chans s !! ch = Some [] ->
  getter s = None ->
  exists s',
    run (feed i x ++ [GetchCall nonblock; GetchReturn CaseRecv]) s
      = Some (s', [Pushed i x; Returned (int_of_byte x) true]) /\
    buffer s' = [] /\ getter s' = None.
Proof.
  intros Hi Hpc Hcur Hm Hch Hq Hg.
  assert (ch < length (chans s))%nat as Hlt by (by eapply lookup_lt_Some).
  rewrite run_app.
  erewrite feed_run; [|done..|simpl; unfold chan_cap; lia].
  cbn [mbind option_bind]. unfold run.
  cbn [step getter set_goroutines set_chans SetConsoleMode_ set_host].
  rewrite Hg. cbn [mbind option_bind getter set_getter].
  assert (forall s1, ttyinChannel (r s1) = Some ch ->
            chans s1 !! ch = Some [x] ->
            getch nonblock (now s) CaseRecv s1
            = Some ((int_of_byte x, true),
                    set_chans (<[ch := []]> (chans s1)) s1)) as Hgetch.
  { intros s1 H1 H2. unfold getch, recv. rewrite H1. simpl. rewrite H2. simpl.
    by destruct nonblock. }
  erewrite Hgetch; [|exact Hch|simpl; by rewrite list_lookup_insert_eq].
  cbn [mbind option_bind]. simpl.
  eexists. split; [reflexivity|]. split; [|done].
  unfold buffer. simpl. rewrite Hch. simpl.
  rewrite list_insert_insert_eq. by rewrite list_lookup_insert_eq.
Qed.

Lemma key_reaches_getch_witness :
  exists s',
    run (feed 0 x41 ++ [GetchCall true; GetchReturn CaseRecv]) demo_state
      = Some (s', [Pushed 0 x41; Returned 65 true]) /\
    buffer s' = [].
Proof.
  destruct (key_reaches_getch demo_state 0
              {| current := 0; fd := 12; b := x00; at_pc := AtRead |}
              x41 0 true eq_refl eq_refl eq_refl eq_refl eq_refl eq_refl
              eq_refl)
    as (s' & Hrun & Hb & _).
  exists s'. split; [exact Hrun | exact Hb].
Defined.

(** ** Geometry when the query succeeds *)

Lemma sub16_small x y : - 2 ^ 15 <= x - y < 2 ^ 15 -> sub16 x y = x - y.
Proof. intros H. unfold sub16. rewrite Z.mod_small; lia. Qed.

Lemma sub16_range x y : - 2 ^ 15 <= sub16 x y < 2 ^ 15.
Proof.
  unfold sub16. pose proof (Z.mod_pos_bound (x - y + 2 ^ 15) (2 ^ 16)). lia.
Qed.

(** X14. When the screen-buffer query succeeds, [Size] takes the width and
    the height from the window rectangle as plain differences, [Right -
    Left] and [Bottom - Top] (one less than the number of cells the
    inclusive coordinates span), the height going through the height policy;
    this for a rectangle with non-negative int16 coordinates. Whatever the
    coordinates, the width stays an int16. *)
Theorem Size_window
  (getEnv : Host -> string -> Z -> Z) (defaultWidth defaultHeight : Z)
  (s : State) (bufferInfo : ConsoleScreenBufferInfo) :
  windows.GetConsoleScreenBufferInfo (host s) (outHandle (r s))
    = inr bufferInfo ->
  (0 <= Left (Window bufferInfo) <= Right (Window bufferInfo) /\
   Right (Window bufferInfo) < 2 ^ 15 ->
   Columns (Size getEnv defaultWidth defaultHeight s)
     = Right (Window bufferInfo) - Left (Window bufferInfo)) /\
  (0 <= Top (Window bufferInfo) <= Bottom (Window bufferInfo) /\
   Bottom (Window bufferInfo) < 2 ^ 15 ->
   Lines (Size getEnv defaultWidth defaultHeight s)
     = maxHeightFunc (r s)
         (Bottom (Window bufferInfo) - Top (Window bufferInfo))) /\
  - 2 ^ 15 <= Columns (Size getEnv defaultWidth defaultHeight s) < 2 ^ 15.
Proof.
  intros H. unfold Size. rewrite H. simpl. split; [|split].
  - intros Hw. apply sub16_small. lia.
  - intros Hh. f_equal. apply sub16_small. lia.
  - apply sub16_range.
Qed.

Lemma Size_window_witness :
  Columns (Size (fun _ _ d => d) 80 24 demo_state) = 119 - 0 /\
  Lines (Size (fun _ _ d => d) 80 24 demo_state) = id (29 - 0).
Proof.
  destruct (Size_window (fun _ _ d => d) 80 24 demo_state
              {| CursorPosition := {| X := 4; Y := 9 |};
                 Window := {| Left := 0; Top := 0;
                              Right := 119; Bottom := 29 |} |} eq_refl)
    as (Hw & Hh & _).
  split; [apply Hw | apply Hh]; simpl; lia.
Defined.

(** X15. [updateTerminalSize] stores the columns and lines of [Size] in
    [width] and [height] and changes nothing [Size] depends on: calling it
    again right away changes nothing more, and the console, the counter, the
    channel and the goroutines are untouched. *)
Theorem updateTerminalSize_idempotent
  (getEnv : Host -> string -> Z -> Z) (defaultWidth defaultHeight : Z)
  (s : State) :
  let s' := updateTerminalSize getEnv defaultWidth defaultHeight s in
  width (r s') = Columns (Size getEnv defaultWidth defaultHeight s) /\
  height (r s') = Lines (Size getEnv defaultWidth defaultHeight s) /\
  Size getEnv defaultWidth defaultHeight s'
    = Size getEnv defaultWidth defaultHeight s /\
  updateTerminalSize getEnv defaultWidth defaultHeight s' = s' /\
  host s' = host s /\ counter s' = counter s /\ chans s' = chans s /\
  goroutines s' = goroutines s /\ mutex (r s') = mutex (r s) /\
  ttyinChannel (r s') = ttyinChannel (r s).
Proof.
  simpl. split_and!; try reflexivity.
Qed.

(** ** The values [getch] returns *)

Lemma int_of_byte_range bc : 0 <= int_of_byte bc < 256.
Proof.
  unfold int_of_byte. pose proof (Byte.to_N_bounded bc). lia.
Qed.

(** X16. Whatever [getch] returns in a run is a byte value with true, or 0
    with false: every returned value is between 0 and 255, and a return with
    false carries 0. *)
Theorem getch_value_range
  (es : list event) (s s' : State) (o : list obs) (v : Z) (ok : bool) :
  run es s = Some (s', o) -> Returned v ok ∈ o ->
  0 <= v < 256 /\ (ok = false -> v = 0).
Proof.
  revert s o. induction es as [|e es IH]; intros s o H Hin.
  { simpl in H. simplify_eq/=. by apply elem_of_nil in Hin. }
  apply run_cons in H as (s1 & o1 & o2 & Hs & Hr & ->).
  apply elem_of_app in Hin as [Hin|Hin]; [|by eapply IH].
  clear IH Hr. destruct e as [| |nb|c| |i a]; simpl in Hs.
  - simplify_eq/=. by apply elem_of_nil in Hin.
  - destruct (restoreTerminal s); simplify_eq/=. by apply elem_of_nil in Hin.
  - destruct (getter s); simplify_eq/=. by apply elem_of_nil in Hin.
  - destruct (getter s) as [[nb entered]|]; simplify_eq/=.
    destruct (getch nb entered c s) as [[[v' ok'] s2]|] eqn:Hg; simplify_eq/=.
    apply list_elem_of_singleton in Hin. simplify_eq.
    apply getch_cases in Hg as [(bc & _ & -> & -> & _)|(_ & -> & -> & _)].
    + split; [apply int_of_byte_range|done].
    + split; [lia|done].
  - simplify_eq/=. by apply elem_of_nil in Hin.
  - destruct (goroutines s !! i) as [rd|] eqn:Hi; simplify_eq/=.
    destruct (reader_step i a rd s) as [[[rd' s2] o3]|] eqn:Hrs; simplify_eq/=.
    apply reader_step_cases in Hrs as (_ & Hrs).
    destruct Hrs as [(_ & _ & _ & -> & _)|[(_ & _ & _ & -> & _)
      |[(_ & _ & _ & _ & _ & -> & _)|[(_ & _ & _ & _ & _ & -> & _)
      |[(_ & _ & _ & -> & _)|(_ & _ & _ & -> & _)]]]]];
      try by apply elem_of_nil in Hin.
    apply list_elem_of_singleton in Hin. done.
Qed.

Lemma getch_value_range_witness :
  0 <= 27 < 256 /\ (true = false -> 27 = 0).
Proof.
  destruct (run arrow_scenario demo_state) as [[s' o]|] eqn:H;
    [|vm_compute in H; discriminate H].
  apply (getch_value_range arrow_scenario demo_state s' o 27 true H).
  vm_compute in H. inversion H. set_solver.
Defined.

(** ** The edges of the counter and of the channel *)

(** X17. The generation check compares modulo 2^64: at the largest counter
    value [restoreTerminal] wraps the counter around to 0, and a waiting
    goroutine that captured generation 0 then passes the check and goes on
    to send its byte. *)
Theorem counter_wraps (s s1 : State) (i : nat) (rd : Reader) :
  counter s = 2 ^ 64 - 1 ->
  goroutines s !! i = Some rd -> at_pc rd = AtLock -> current rd = 0 ->
  restoreTerminal s = Some s1 ->
  counter s1 = 0 /\
  exists s2 rd2,
    step (Go i Lock) s1 = Some (s2, []) /\
    goroutines s2 !! i = Some rd2 /\ at_pc rd2 = AtSend /\
    mutex (r s2) = true.
Proof.
  intros Hc Hi Hpc Hcur H. unfold restoreTerminal in H.
  destruct (mutex (r s)) eqn:Hm; [done|]. inversion H; subst; clear H.
  assert (incr64 (counter s) = 0) as E0 by (rewrite Hc; reflexivity).
  split; [exact E0|].
  eexists _, _. split.
  - apply step_Go with (rd := rd); [exact Hi|].
    unfold reader_step. rewrite Hpc. simpl.
    rewrite bool_decide_eq_false_2; [reflexivity|].
    intros Hne. apply Hne. rewrite E0. exact Hcur.
  - split.
    + cbn [goroutines set_goroutines set_r SetConsoleMode_ set_host
           set_counter].
      apply list_lookup_insert_eq. by eapply lookup_lt_Some.
    + split; reflexivity.
Qed.

Lemma counter_wraps_witness :
  exists s1 s2,
    restoreTerminal wrap_state = Some s1 /\ counter s1 = 0 /\
    step (Go 0%nat Lock) s1 = Some (s2, []) /\ mutex (r s2) = true.
Proof.
  destruct (restoreTerminal wrap_state) as [s1|] eqn:H;
    [|vm_compute in H; discriminate H].
  destruct (counter_wraps wrap_state s1 0
              {| current := 0; fd := 12; b := x41; at_pc := AtLock |}
              eq_refl eq_refl eq_refl eq_refl H)
    as (Hc & s2 & rd2 & Hs & _ & _ & Hm).
  exists s1, s2. split; [reflexivity|]. split; [exact Hc|].
  split; [exact Hs | exact Hm].
Defined.

(** X18. Back-pressure reaches [restoreTerminal]: while the channel holds
    its 1024 bytes, a goroutine standing at the send with the mutex held
    cannot send and [restoreTerminal] cannot take the mutex; once a [getch]
    in progress has received a byte, the send goes through. *)
Theorem full_channel_blocks
  (s : State) (i : nat) (rd : Reader) (ch : nat) (q : list byte)
  (nonblock : bool) (entered : Z) :
  goroutines s !! i = Some rd -> at_pc rd = AtSend ->
  mutex (r s) = true ->
  ttyinChannel (r s) = Some ch -> chans s !! ch = Some q ->
  length q = chan_cap ->
  getter s = Some (nonblock, entered) ->
  step (Go i Send) s = None /\
  restoreTerminal s = None /\
  exists s' v,
    step (GetchReturn CaseRecv) s = Some (s', [Returned v true]) /\
    restoreTerminal s' = None /\
    exists s'', step (Go i Send) s' = Some (s'', [Pushed i (b rd)]) /\
                length (buffer s'') = chan_cap.
Proof.
  intros Hi Hpc Hm Hch Hq Hlen Hg.
  assert (ch < length (chans s))%nat as Hlt by (by eapply lookup_lt_Some).
  split_and!.
  - simpl. rewrite Hi. simpl. unfold reader_step. rewrite Hpc.
    unfold send. rewrite Hch. simpl. rewrite Hq. simpl.
    rewrite Hlen, Nat.ltb_irrefl. done.
  - unfold restoreTerminal. by rewrite Hm.
  - destruct q as [|bc q']; [done|].
    exists (set_getter None (set_chans (<[ch := q']> (chans s)) s)),
           (int_of_byte bc).
    split_and!.
    + simpl. rewrite Hg. simpl.
      assert (getch nonblock entered CaseRecv s
              = Some ((int_of_byte bc, true),
                      set_chans (<[ch := q']> (chans s)) s)) as ->.
      { unfold getch, recv. rewrite Hch. simpl. rewrite Hq. simpl.
        by destruct nonblock. }
      done.
    + unfold restoreTerminal. simpl. by rewrite Hm.
    + eexists. split.
      * apply step_Go with (rd := rd); [exact Hi|].
        unfold reader_step. rewrite Hpc. unfold send. simpl. rewrite Hch.
        simpl. rewrite list_lookup_insert_eq by done. simpl.
        assert (length q' < chan_cap)%nat as Hlt' by (simpl in Hlen; lia).
        apply Nat.ltb_lt in Hlt'. rewrite Hlt'. reflexivity.
      * unfold buffer. simpl. rewrite Hch. simpl.
        rewrite list_insert_insert_eq, list_lookup_insert_eq by done.
        simpl. rewrite length_app. simpl in *. lia.
Qed.

Lemma full_channel_blocks_witness :
  step (Go 0%nat Send) full_state = None /\
  restoreTerminal full_state = None.
Proof.
  destruct (full_channel_blocks full_state 0
              {| current := 0; fd := 12; b := x42; at_pc := AtSend |}
              0 (replicate 1024 x41) false 0
              eq_refl eq_refl eq_refl eq_refl eq_refl eq_refl eq_refl)
    as (Hs & Hr & _).
  split; [exact Hs | exact Hr].
Defined.

(** ** What start-up captures, and entering again *)

(** X19. A successful [initPlatform] captures in [origStateInput] and
    [origStateOutput] the modes the two consoles are in before it applies
    its own, on the handles [syscall.Open] returned for [CONIN$] and
    [CONOUT$]; and nothing that runs afterwards changes the captured modes
    or the handles. *)
Theorem saved_modes_kept
  (s s0 s1 : State) (es : list event) (o : list obs) :
  initPlatform s = (None, s0) ->
  run es s0 = Some (s1, o) ->
  inHandle (r s1) = (syscall.Open (host s) "CONIN$").1 /\
  outHandle (r s1) = (syscall.Open (host s) "CONOUT$").1 /\
  windows.GetConsoleMode (host s) (inHandle (r s1))
    = inr (origStateInput (r s1)) /\
  windows.GetConsoleMode (host s) (outHandle (r s1))
    = inr (origStateOutput (r s1)).
Proof.
  intros Hinit Hrun.
  pose proof (run_frame _ _ _ _ Hrun) as [_ Foi Foo Fih Foh _ _ _].
  rewrite Foi, Foo, Fih, Foh. clear Hrun Foi Foo Fih Foh.
  destruct (initPlatform_ok _ _ Hinit) as (Hi & Ho & _).
  split_and!; [| |exact Hi|exact Ho].
  all: revert Hinit; unfold initPlatform.
  all: destruct (syscall.Open (host s) "CONOUT$") as [oh e1]; simpl.
  all: destruct (windows.GetConsoleMode (host s) oh) as [err|mo]; [done|].
  all: destruct (syscall.Open (host s) "CONIN$") as [ih e2]; simpl.
  all: destruct (windows.GetConsoleMode (host s) ih) as [err|mi]; [done|].
  all: intros H; by inversion H.
Qed.

Lemma saved_modes_kept_witness :
  exists s1,
    run (feed 0 x41 ++ [Restore; Setup]) demo_state
      = Some (s1, [Pushed 0 x41]) /\
    origStateInput (r s1) = 0x1f7 /\ origStateOutput (r s1) = 0x3.
Proof.
  destruct (run (feed 0 x41 ++ [Restore; Setup]) demo_state)
    as [[s1 o]|] eqn:H; [|vm_compute in H; discriminate H].
  assert (o = [Pushed 0%nat x41]) as -> by (vm_compute in H; by inversion H).
  exists s1. split; [reflexivity|].
  assert (initPlatform (boot demo_host id) = (None, demo_state)) as Hinit
    by (vm_compute; reflexivity).
  destruct (saved_modes_kept _ _ _ _ _ Hinit H) as (Ei & Eo & Hi & Ho).
  rewrite Ei in Hi. rewrite Eo in Ho.
  vm_compute in Hi. vm_compute in Ho.
  split; [by inversion Hi | by inversion Ho].
Defined.

(** X20. Entering again works like entering first: after a successful
    [initPlatform] and whatever ran since, a call of [setupTerminal] leaves
    the screen buffer in mode [consoleFlagsOutput] and the input buffer in
    mode [consoleFlagsInput], and the goroutine it starts is the last one,
    at the top of its loop, of the present generation; the goroutines
    started before keep the generation they captured. The two handles are
    taken to differ and the console driver to accept the two modes. *)
Theorem setupTerminal_again
  (s s0 s1 s2 : State) (es : list event) (o o2 : list obs) :
  initPlatform s = (None, s0) ->
  run es s0 = Some (s1, o) ->
  step Setup s1 = Some (s2, o2) ->
  inHandle (r s0) ≠ outHandle (r s0) ->
  accepts (host s) (outHandle (r s0)) consoleFlagsOutput = true ->
  accepts (host s) (inHandle (r s0)) consoleFlagsInput = true ->
  windows.GetConsoleMode (host s2) (outHandle (r s2)) = inr consoleFlagsOutput /\
  windows.GetConsoleMode (host s2) (inHandle (r s2)) = inr consoleFlagsInput /\
  goroutines s2
    = goroutines s1 ++ [{| current := counter s2; fd := inHandle (r s2);
                           b := x00; at_pc := AtRead |}] /\
  counter s2 = counter s1 /\ buffer s2 = buffer s1.
Proof.
  intros Hinit Hrun Hstep Hne Hao Hai.
  destruct (initPlatform_ok _ _ Hinit) as (Hi & Ho & Hf0 & _).
  pose proof (run_frame _ _ _ _ Hrun) as [Fh1 _ _ Fih1 Foh1 _ _ _].
  simpl in Hstep. inversion Hstep; subst; clear Hstep.
  split_and!; try reflexivity.
  all: unfold setupTerminal; cbn [host set_host SetConsoleMode_ r go
                                  set_goroutines].
  all: rewrite !SetConsoleMode_get, SetConsoleMode_accepts.
  all: rewrite Fih1, Foh1.
  all: repeat case_decide; try congruence.
  all: rewrite (hf_accepts _ _ Fh1), (hf_accepts _ _ Hf0), ?Hao, ?Hai.
  - apply GetConsoleMode_inr in Ho.
    destruct (hf_consoles _ _ Fh1 (outHandle (r s0))) as [_ Hc1].
    destruct (hf_consoles _ _ Hf0 (outHandle (r s0))) as [_ Hc0].
    destruct Hc1 as [m1 Hm1]; [apply Hc0; by rewrite Ho|].
    unfold windows.GetConsoleMode. by rewrite Hm1.
  - apply GetConsoleMode_inr in Hi.
    destruct (hf_consoles _ _ Fh1 (inHandle (r s0))) as [_ Hc1].
    destruct (hf_consoles _ _ Hf0 (inHandle (r s0))) as [_ Hc0].
    destruct Hc1 as [m1 Hm1]; [apply Hc0; by rewrite Hi|].
    unfold windows.GetConsoleMode. by rewrite Hm1.
Qed.

Lemma setupTerminal_again_witness :
  exists s1 s2,
    run (feed 0 x41 ++ [Restore]) demo_state = Some (s1, [Pushed 0 x41]) /\
    step Setup s1 = Some (s2, []) /\
    windows.GetConsoleMode (host s2) (inHandle (r s2)) = inr consoleFlagsInput /\
    length (goroutines s2) = 2%nat.
Proof.
  destruct (run (feed 0 x41 ++ [Restore]) demo_state) as [[s1 o]|] eqn:H;
    [|vm_compute in H; discriminate H].
  assert (o = [Pushed 0%nat x41]) as -> by (vm_compute in H; by inversion H).
  exists s1, (setupTerminal s1). split; [reflexivity|]. split; [reflexivity|].
  assert (initPlatform (boot demo_host id) = (None, demo_state)) as Hinit
    by (vm_compute; reflexivity).
  assert (inHandle (r demo_state) ≠ outHandle (r demo_state)) as Hne
    by (vm_compute; discriminate).
  destruct (setupTerminal_again _ _ _ _ _ _ _ Hinit H eq_refl Hne
              eq_refl eq_refl) as (_ & Hin & Hg & _).
  split; [exact Hin|]. rewrite Hg, length_app.
  vm_compute in H. inversion H. reflexivity.
Defined.
